(** * My-vercel: deployment orchestration and status propagation

    A shallow embedding of the three programs that drive a deployment job:

    - [DeployService]  : deploy-service/src/index.ts, the SQS consumer
                         ([updateStatus], [startPolling]);
    - [SocketHandler]  : aws-lambda/ApiGatewaySockerHandler/index.js, the
                         WebSocket lambda ([postToConnection], [handler]);
    - [StreamHandler]  : unnamed/part_000, the DynamoDB-stream lambda
                         ([postToConnection], [handler]) that relays
                         status changes.

    Two more programs stand at the ends of a job's course and are embedded
    in the same way, each over a state of its own:

    - [UploadService]  : upload-service/src/index.ts, the handler of
                         POST /deploy that creates and queues a job;
    - [Client]         : client/src/App.jsx, the page's [handleSubmit] and
                         the handlers of its WebSocket.

    The programs are asynchronous JavaScript that talk to SQS, DynamoDB,
    CodeBuild and the API Gateway.  They are embedded as functions in a state
    and exception monad over a [World]: the DynamoDB table, a chronological
    trace of every observable action, and a counter of external calls.  What
    the outside world answers (a receive result, a build outcome, a failing
    store call, the clock) is read from an [Env], indexed by that counter, so
    that every theorem quantifies over all behaviours of the services. *)

From Stdlib Require Import ZArith.
From stdpp Require Import gmap strings list fin_maps pretty.

Open Scope string_scope.
Open Scope list_scope.

(** ** JavaScript values *)

Module Js.

(** The values the programs handle: results of [JSON.parse], unmarshalled
    DynamoDB attributes and the payloads given to [JSON.stringify].  Numbers
    are kept as integers: the programs only test them for truthiness.  An
    object lists its own properties, each key once. *)
#[warnings="-register-all"]
Inductive jsval : Type :=
  | VUndefined
  | VNull
  | VBool (b : bool)
  | VNum (z : Z)
  | VStr (s : string)
  | VArr (elems : list jsval)
  | VObj (fields : list (string * jsval)).

(** A thrown value.  Everything thrown by these programs and by the AWS SDK
    is an [Error] object; [statusCode] is its property of that name, which
    both lambdas test, and is [None] when the object has none. *)
Record JsError : Type := mkError {
  message : string;
  statusCode : option Z
}.

Definition Error_ (msg : string) : JsError := mkError msg None.

(** What a client of the AWS SDK for JavaScript v3 (the @aws-sdk/client-*
    packages every program imports) throws for a call the service
    refuses: a [ServiceException] with the name of the error, the HTTP
    status of the response, kept under [$metadata.httpStatusCode], and a
    message. *)
Record ServiceException : Type := mkServiceException {
  exception_name : string;
  httpStatusCode : Z;
  exception_message : string
}.

(** The object a [catch] receives for it.  The status is under
    [$metadata]; the object has no [statusCode] property. *)
Definition thrown (x : ServiceException) : JsError :=
  mkError (exception_message x) None.

(** Completion of a statement: normal, or abrupt by [throw]. *)
Inductive Result (A : Type) : Type :=
  | Ok (a : A)
  | Throw (e : JsError).
Arguments Ok {A} a.
Arguments Throw {A} e.

(** [ToBoolean]. *)
Definition truthy (v : jsval) : bool :=
  match v with
  | VUndefined | VNull => false
  | VBool b => b
  | VNum z => negb (z =? 0)%Z
  | VStr s => negb (String.eqb s "")
  | VArr _ | VObj _ => true
  end.

(** Truthiness of an optional string field ([undefined] or a string). *)
Definition truthy_str (o : option string) : bool :=
  match o with
  | Some s => negb (String.eqb s "")
  | None => false
  end.

Fixpoint assoc (k : string) (fields : list (string * jsval)) : option jsval :=
  match fields with
  | [] => None
  | (k', v) :: rest => if String.eqb k k' then Some v else assoc k rest
  end.

(** [v.k] for a property [k] that no prototype defines (here "id"):
    a [TypeError] on [undefined] and [null], the own property of an object,
    [undefined] on everything else. *)
Definition get_prop (v : jsval) (k : string) : Result jsval :=
  match v with
  | VUndefined | VNull => Throw (Error_ "Cannot read properties of null")
  | VObj fields => Ok (default VUndefined (assoc k fields))
  | _ => Ok VUndefined
  end.

(** [v?.k]. *)
Definition get_prop_opt (v : jsval) (k : string) : jsval :=
  match get_prop v k with
  | Ok x => x
  | Throw _ => VUndefined
  end.

(** [ToString], as used by template literals.  Inside [Array.prototype.join]
    the elements [undefined] and [null] give the empty string. *)
Fixpoint ToString (v : jsval) : string :=
  match v with
  | VUndefined => "undefined"
  | VNull => "null"
  | VBool true => "true"
  | VBool false => "false"
  | VNum z => pretty z
  | VStr s => s
  | VArr elems =>
    String.concat ","
      (map (fun e => match e with
                     | VUndefined | VNull => ""
                     | _ => ToString e
                     end) elems)
  | VObj _ => "[object Object]"
  end.

(** [a || b]. *)
Definition js_or (a b : jsval) : jsval := if truthy a then a else b.

Definition is_undefined (v : jsval) : bool :=
  match v with VUndefined => true | _ => false end.

(** [JSON.stringify] of an object literal, up to the final rendering as
    text: properties whose value is [undefined] are left out, all others
    (also [null]) are kept, in order. *)
Definition JSON_stringify (fields : list (string * jsval)) : jsval :=
  VObj (filter (fun kv => negb (is_undefined kv.2)) fields).

End Js.
Export Js.

(** ** The DynamoDB table *)

Module Dynamo.

(** Attribute values in DynamoDB's wire format, restricted to the scalar
    types the job records use. *)
Inductive AttrValue : Type :=
  | AV_S (s : string)
  | AV_N (n : Z)
  | AV_BOOL (b : bool)
  | AV_NULL.

#[export] Instance AttrValue_eq_dec : EqDecision AttrValue.
Proof. solve_decision. Defined.

(** An item maps attribute names to values; the table maps the partition
    key [id] (a string) to the item. *)
Abbreviation Item := (gmap string AttrValue).
Abbreviation Table := (gmap string (gmap string AttrValue)).

(** [unmarshall] of @aws-sdk/util-dynamodb, per attribute and per item.
    A number attribute gives a JavaScript number as long as it is a safe
    integer; beyond that the library gives a BigInt, which is outside
    [jsval]: see [safe_image] for the images on which this definition is
    the library's. *)
Definition unmarshall_attr (a : AttrValue) : jsval :=
  match a with
  | AV_S s => VStr s
  | AV_N n => VNum n
  | AV_BOOL b => VBool b
  | AV_NULL => VNull
  end.

Definition unmarshall (img : Item) : gmap string jsval :=
  unmarshall_attr <$> img.

(** Property access on an unmarshalled item. *)
Definition field (o : gmap string jsval) (k : string) : jsval :=
  default VUndefined (o !! k).

(** The [SET] clauses of an update expression, applied left to right. *)
Definition apply_sets (sets : list (string * AttrValue)) (item : Item) : Item :=
  foldl (fun it kv => <[kv.1 := kv.2]> it) item sets.

End Dynamo.
Export Dynamo.

(** ** Observable actions and the world *)

Inductive Level : Type :=
  | Info    (* console.log *)
  | Error.  (* console.error *)

(** One entry per action, in program order.  A console entry records the
    literal text of the call, without the interpolated values. *)
Inductive Event : Type :=
  | EvConsole (lvl : Level) (text : string)
  | EvReceive (ok : bool)
  | EvUpdateItem (key : jsval) (sets : list (string * AttrValue))
                 (conditional : bool) (ok : bool)
  | EvBuild (id : jsval) (ok : bool)
  | EvDeleteMessage (handle : string) (ok : bool)
  | EvPostToConnection (connectionId : jsval) (data : jsval) (ok : bool)
  | EvSleep (ms : Z).

Record World : Type := mkWorld {
  table : Table;
  trace : list Event;
  tick : nat
}.

(** An SQS message and the output of [ReceiveMessageCommand]. *)
Record Message : Type := mkMessage {
  ReceiptHandle : option string;
  Body : option string
}.

Record ReceiveOutput : Type := mkReceive {
  Messages : option (list Message)
}.

(** What the services answer.  Each external call reads its answer at the
    current [tick] and advances it. *)
Record Env : Type := mkEnv {
  JSON_parse : string -> Result jsval;
  now : nat -> string;
  sqs_receive : nat -> Result ReceiveOutput;
  sqs_delete : nat -> string -> option JsError;
  ddb_fault : nat -> option JsError;
  startBuildAndWait_result : nat -> jsval -> option JsError;
  gateway_fault : nat -> jsval -> option JsError
}.

(** ** The monad *)

Module Monad.

Definition M (A : Type) : Type := World -> Result A * World.

#[export] Instance M_ret : MRet M := fun A a w => (Ok a, w).

#[export] Instance M_bind : MBind M := fun A B f m w =>
  match m w with
  | (Ok a, w') => f a w'
  | (Throw e, w') => (Throw e, w')
  end.

Definition throw {A} (e : JsError) : M A := fun w => (Throw e, w).

(** [try { m } catch (e) { h e }]. *)
Definition try_catch {A} (m : M A) (h : JsError -> M A) : M A := fun w =>
  match m w with
  | (Ok a, w') => (Ok a, w')
  | (Throw e, w') => h e w'
  end.

(** Runs [m] and hands its completion to the continuation; used where the
    handler reads a variable assigned inside the [try] block. *)
Definition attempt {A} (m : M A) : M (Result A) := fun w =>
  match m w with
  | (r, w') => (Ok r, w')
  end.

Definition lift_result {A} (r : Result A) : M A := fun w => (r, w).

Definition emit (e : Event) : M unit := fun w =>
  (Ok tt, mkWorld (table w) (trace w ++ [e]) (tick w)).

Definition console_log (text : string) : M unit := emit (EvConsole Info text).
Definition console_error (text : string) : M unit := emit (EvConsole Error text).

(** Reads the call counter and advances it. *)
Definition next_tick : M nat := fun w =>
  (Ok (tick w), mkWorld (table w) (trace w) (S (tick w))).

Definition get_tick : M nat := fun w => (Ok (tick w), w).
Definition get_table : M Table := fun w => (Ok (table w), w).
Definition put_table (t : Table) : M unit := fun w =>
  (Ok tt, mkWorld t (trace w) (tick w)).

(** [for (const x of xs) { f x }]: an exception leaves the loop. *)
Fixpoint for_of {A} (xs : list A) (f : A -> M unit) : M unit :=
  match xs with
  | [] => mret tt
  | x :: rest => f x ;; for_of rest f
  end.

End Monad.
Export Monad.

(** ** The AWS clients *)

Module Services.
Section WithEnv.
Context (env : Env).

(** [ddbDocClient.send(new UpdateCommand(...))] against a table whose
    partition key is [id] of type String.  A call that the service fails
    changes nothing.  Without a condition an update of a missing item
    creates it; with [attribute_exists(id)] it is refused.  The programs
    call it with a truthy [id] only, so with a non-empty key when the key
    is a string; the service's refusal of an empty key is left out, and
    what is proved of a missing item assumes a non-empty key. *)
Definition ddb_update (key : jsval) (sets : list (string * AttrValue))
    (conditional : bool) : M unit :=
  n ← next_tick;
  t ← get_table;
  match ddb_fault env n with
  | Some e => emit (EvUpdateItem key sets conditional false) ;; throw e
  | None =>
    match key with
    | VStr k =>
      match t !! k with
      | Some item =>
        put_table (<[k := apply_sets sets item]> t) ;;
        emit (EvUpdateItem key sets conditional true)
      | None =>
        if conditional then
          emit (EvUpdateItem key sets conditional false) ;;
          throw (thrown (mkServiceException "ConditionalCheckFailedException"
                           400 "The conditional request failed"))
        else
          put_table (<[k := apply_sets sets {[ "id" := AV_S k ]}]> t) ;;
          emit (EvUpdateItem key sets conditional true)
      end
    | _ =>
      emit (EvUpdateItem key sets conditional false) ;;
      throw (thrown (mkServiceException "ValidationException" 400
                       "The provided key element does not match the schema"))
    end
  end.

(** [apiGatewayClient.send(new PostToConnectionCommand(...))]. *)
Definition apigw_send (connectionId : jsval) (data : jsval) : M unit :=
  n ← next_tick;
  match gateway_fault env n connectionId with
  | None => emit (EvPostToConnection connectionId data true)
  | Some e => emit (EvPostToConnection connectionId data false) ;; throw e
  end.

End WithEnv.
End Services.

(** ** deploy-service/src/index.ts *)

Module DeployService.
Section WithEnv.
Context (env : Env).

(** [new Date().toISOString()]. *)
Definition Date_now : M string := n ← get_tick; mret (now env n).

(** Lines 54-67: the [SET] clauses of the update expression with their
    values; [error] is set only for a truthy [errorMsg]. *)
Definition expressionAttributes (status t : string) (errorMsg : option string)
    : list (string * AttrValue) :=
  let base := [("status", AV_S status); ("updatedAt", AV_S t)] in
  if truthy_str errorMsg
  then base ++ [("error", AV_S (default "" errorMsg))]
  else base.

(** Lines 51-80. *)
Definition updateStatus (id : jsval) (status : string)
    (errorMsg : option string) : M unit :=
  console_log "Updating status for" ;;
  try_catch
    (t ← Date_now;
     Services.ddb_update env id (expressionAttributes status t errorMsg) false)
    (fun err => console_error "Failed to update status for").

(** [await startBuildAndWait(id)] of ./codeBuild.js: resolves, or rejects
    with the build's error. *)
Definition startBuildAndWait (id : jsval) : M unit :=
  n ← next_tick;
  match startBuildAndWait_result env n id with
  | None => emit (EvBuild id true)
  | Some e => emit (EvBuild id false) ;; throw e
  end.

(** [sqsClient.send(new DeleteMessageCommand(...))]. *)
Definition sqs_send_delete (handle : string) : M unit :=
  n ← next_tick;
  match sqs_delete env n handle with
  | None => emit (EvDeleteMessage handle true)
  | Some e => emit (EvDeleteMessage handle false) ;; throw e
  end.

(** [sqsClient.send(receiveCommand)]. *)
Definition sqs_send_receive : M ReceiveOutput :=
  n ← next_tick;
  match sqs_receive env n with
  | Ok out => emit (EvReceive true) ;; mret out
  | Throw e => emit (EvReceive false) ;; throw e
  end.

(** Lines 115-120: the statements of the [try] block up to and including
    the assignment to [body]; the result is the value assigned. *)
Definition parse_body (message : Message) : M jsval :=
  match Body message with
  | Some raw =>
    if truthy_str (Body message) then
      console_log "Raw Message Body:" ;;
      lift_result (JSON_parse env raw)
    else throw (Error_ "Received message with no Body.")
  | None => throw (Error_ "Received message with no Body.")
  end.

(** Lines 122-124: [if (!body || !body.id) throw ...]. *)
Definition check_body (body : jsval) : M unit :=
  if negb (truthy body) then
    throw (Error_ "Invalid message body or missing deployment ID.")
  else
    id ← lift_result (get_prop body "id");
    if negb (truthy id) then
      throw (Error_ "Invalid message body or missing deployment ID.")
    else mret tt.

(** Lines 122-141: the rest of the [try] block, with [body] assigned.
    Past the check [body] is an object or a truthy primitive, on which
    [body.id] and [body?.id] agree. *)
Definition build_steps (body : jsval) : M unit :=
  check_body body ;;
  let id := get_prop_opt body "id" in
  console_log "Parsed ID:" ;;
  console_log "Parsed Repo:" ;;
  updateStatus id "IN_PROGRESS" None ;;
  console_log "Triggering AWS CodeBuild project for" ;;
  startBuildAndWait id ;;
  console_log "CodeBuild finished successfully for" ;;
  updateStatus id "DEPLOYED" None.

(** Lines 144-154: the [catch] block, entered with the value [body] had
    when the exception was thrown. *)
Definition on_failure (body : jsval) (err : JsError) : M unit :=
  console_error "Build failed for ID" ;;
  let id := get_prop_opt body "id" in
  if truthy id then
    let msg := if String.eqb (message err) "" then "Unknown error"
               else message err in
    updateStatus id "ERROR" (Some msg)
  else mret tt.

(** Lines 156-165. *)
Definition delete_message (handle : string) : M unit :=
  sqs_send_delete handle ;;
  console_log "Message processed and deleted." ;;
  console_log "----------------------------".

(** Lines 102-165: the body of the [for] loop for one message.  Both
    [continue] statements end the function normally. *)
Definition processMessage (message : Message) : M unit :=
  match ReceiptHandle message with
  | Some handle =>
    if truthy_str (ReceiptHandle message) then
      console_log "--- NEW MESSAGE RECEIVED ---" ;;
      parsed ← attempt (parse_body message);
      match parsed with
      | Throw err => on_failure VUndefined err
      | Ok body =>
        built ← attempt (build_steps body);
        match built with
        | Throw err => on_failure body err
        | Ok _ => delete_message handle
        end
      end
    else console_error "Received message with no ReceiptHandle. Cannot delete."
  | None => console_error "Received message with no ReceiptHandle. Cannot delete."
  end.

(** Lines 90-169: the [try] block of one turn. *)
Definition poll_once : M unit :=
  data ← sqs_send_receive;
  match Messages data with
  | Some (m :: ms) => for_of (m :: ms) processMessage
  | _ => console_log "No new messages. Re-polling..."
  end.

(** Lines 170-174: the [catch] block of one turn. *)
Definition backoff (err : JsError) : M unit :=
  console_error "Error in main polling loop:" ;;
  emit (EvSleep 5000).

(** Lines 89-174: one turn of [while (true)]. *)
Definition iteration : M unit := try_catch poll_once backoff.

(** Lines 87-176: [startPolling], cut after [n] turns.  The loop has no
    exit; an exception escaping a turn would reject the promise and end
    the polling, which is the [Throw] result here. *)
Fixpoint startPolling (n : nat) : M unit :=
  match n with
  | O => mret tt
  | S n' => iteration ;; startPolling n'
  end.

End WithEnv.
End DeployService.

(** ** aws-lambda/ApiGatewaySockerHandler/index.js *)

Module SocketHandler.

(** The API Gateway WebSocket event: [event.requestContext.routeKey],
    [event.requestContext.connectionId] and [event.body]. *)
Record RequestEvent : Type := mkRequest {
  routeKey : string;
  connectionId : string;
  body : option string
}.

Record Response : Type := mkResponse {
  statusCode : Z;
  responseBody : string
}.

Section WithEnv.
Context (env : Env).

(** Lines 29-43. *)
Definition postToConnection (connectionId : jsval)
    (data : list (string * jsval)) : M unit :=
  try_catch
    (Services.apigw_send env connectionId (JSON_stringify data))
    (fun error =>
       if negb (bool_decide (Js.statusCode error = Some 410%Z))
       then console_error "Error posting to connection:"
       else mret tt).

(** [JSON.parse(event.body)]; an absent body is not JSON. *)
Definition parse_event_body (b : option string) : Result jsval :=
  match b with
  | Some raw => JSON_parse env raw
  | None => Throw (Error_ "undefined is not valid JSON")
  end.

(** Lines 70-110: the [register] case. *)
Definition register (event : RequestEvent) : M Response :=
  try_catch
    (body ← lift_result (parse_event_body (body event));
     deploymentId ← lift_result (get_prop body "id");
     if negb (truthy deploymentId) then
       mret (mkResponse 400 "Missing 'id' in register message.")
     else
       Services.ddb_update env deploymentId
         [("connectionId", AV_S (connectionId event))] true ;;
       console_log "Registered connection" ;;
       postToConnection (VStr (connectionId event))
         [("type", VStr "SYSTEM");
          ("message", VStr ("Successfully registered for updates on "
                            +:+ ToString deploymentId))] ;;
       mret (mkResponse 200 "Registered."))
    (fun error =>
       console_error "Error during registration:" ;;
       mret (mkResponse 500 "Registration failed.")).

(** Lines 46-117. *)
Definition handler (event : RequestEvent) : M Response :=
  console_log "Received route:" ;;
  if String.eqb (routeKey event) "$connect" then
    console_log "Client connected:" ;;
    mret (mkResponse 200 "Connected.")
  else if String.eqb (routeKey event) "$disconnect" then
    console_log "Client disconnected:" ;;
    mret (mkResponse 200 "Disconnected.")
  else if String.eqb (routeKey event) "register" then
    register event
  else
    console_log "Received unknown route:" ;;
    mret (mkResponse 404 "Unknown route.").

End WithEnv.
End SocketHandler.

(** ** The DynamoDB-stream lambda (unnamed/part_000) *)

Module StreamHandler.

(** A change-feed record: [record.eventName] and
    [record.dynamodb.NewImage]. *)
Record StreamRecord : Type := mkRecord {
  eventName : string;
  NewImage : option Item
}.

Section WithEnv.
Context (env : Env).

(** Lines 19-31. *)
Definition postToConnection (connectionId : jsval)
    (data : list (string * jsval)) : M unit :=
  try_catch
    (Services.apigw_send env connectionId (JSON_stringify data))
    (fun error =>
       if negb (bool_decide (Js.statusCode error = Some 410%Z))
       then console_error "Error posting to connection:"
       else mret tt).

(** Lines 56-61: the object literal handed to [postToConnection]. *)
Definition status_update (deployment : gmap string jsval)
    : list (string * jsval) :=
  [("type", VStr "STATUS_UPDATE");
   ("id", field deployment "id");
   ("status", field deployment "status");
   ("error", js_or (field deployment "error") VNull)].

(** Lines 38-70: the body of the [for] loop for one record. *)
Definition process_record (record : StreamRecord) : M unit :=
  if String.eqb (eventName record) "MODIFY" then
    try_catch
      (match NewImage record with
       | None => mret tt
       | Some newImage =>
         let deployment := unmarshall newImage in
         if truthy (field deployment "connectionId") then
           console_log "Change detected, sending status" ;;
           postToConnection (field deployment "connectionId")
             (status_update deployment)
         else
           console_log "Change detected, but no client is registered."
       end)
      (fun error => console_error "Error processing stream record:")
  else mret tt.

(** Lines 34-72. *)
Definition handler (event : list StreamRecord) : M unit :=
  console_log "DynamoDB Stream event received:" ;;
  for_of event process_record.

End WithEnv.
End StreamHandler.

(** ** Reading a run *)

Module Observe.

(** The events a computation adds to the trace when started in [w]. *)
Definition events_of {A} (m : M A) (w : World) : list Event :=
  drop (length (trace w)) (trace (m w).2).

Definition is_console (e : Event) : bool :=
  match e with EvConsole _ _ => true | _ => false end.

Definition is_error_log (e : Event) : bool :=
  match e with EvConsole Error _ => true | _ => false end.

Definition is_update (e : Event) : bool :=
  match e with EvUpdateItem _ _ _ _ => true | _ => false end.

Definition is_delete (e : Event) : bool :=
  match e with EvDeleteMessage _ _ => true | _ => false end.

Definition is_post (e : Event) : bool :=
  match e with EvPostToConnection _ _ _ => true | _ => false end.

Definition is_build_ok (e : Event) : bool :=
  match e with EvBuild _ ok => ok | _ => false end.

Definition is_build_failed (e : Event) : bool :=
  match e with EvBuild _ ok => negb ok | _ => false end.

(** The value a [SET] list gives to an attribute. *)
Fixpoint set_value (attr : string) (sets : list (string * AttrValue))
    : option AttrValue :=
  match sets with
  | [] => None
  | (a, v) :: rest =>
    match set_value attr rest with
    | Some v' => Some v'
    | None => if String.eqb a attr then Some v else None
    end
  end.

Definition status_of (sets : list (string * AttrValue)) : option string :=
  match set_value "status" sets with
  | Some (AV_S s) => Some s
  | _ => None
  end.

(** An update call that sets [status] to [st], recorded or not. *)
Definition writes_status (st : string) (e : Event) : bool :=
  match e with
  | EvUpdateItem _ sets _ _ => bool_decide (status_of sets = Some st)
  | _ => false
  end.

(** An update call that the store applied. *)
Definition recorded (e : Event) : bool :=
  match e with EvUpdateItem _ _ _ ok => ok | _ => false end.

(** Every delete in [evs] comes after an event satisfying [guard]. *)
Fixpoint deletes_guarded_by (guard : Event -> bool) (evs : list Event) : bool :=
  match evs with
  | [] => true
  | e :: rest =>
    if guard e then true
    else if is_delete e then false
    else deletes_guarded_by guard rest
  end.

(** The status values that the store recorded for job [k], in order. *)
Fixpoint status_writes (k : string) (evs : list Event) : list string :=
  match evs with
  | [] => []
  | EvUpdateItem (VStr k') sets _ true :: rest =>
    match status_of sets with
    | Some st => if String.eqb k' k then st :: status_writes k rest
                 else status_writes k rest
    | None => status_writes k rest
    end
  | _ :: rest => status_writes k rest
  end.

Fixpoint is_subsequence (l pattern : list string) : bool :=
  match l, pattern with
  | [], _ => true
  | _ :: _, [] => false
  | x :: l', p :: pattern' =>
    if String.eqb x p then is_subsequence l' pattern'
    else is_subsequence l pattern'
  end.

(** A subsequence of PENDING, IN_PROGRESS, DEPLOYED or of PENDING,
    IN_PROGRESS, ERROR. *)
Definition lifecycle_ok (l : list string) : bool :=
  is_subsequence l ["PENDING"; "IN_PROGRESS"; "DEPLOYED"]
  || is_subsequence l ["PENDING"; "IN_PROGRESS"; "ERROR"].

(** The stored status of job [k]. *)
Definition stored_status (t : Table) (k : string) : option AttrValue :=
  item ← t !! k; item !! "status".

Definition has_error (t : Table) (k : string) : bool :=
  match t !! k with
  | Some item => bool_decide (is_Some (item !! "error"))
  | None => false
  end.

Definition is_ERROR (t : Table) (k : string) : bool :=
  bool_decide (stored_status t k = Some (AV_S "ERROR")).

(** An update that the store applied to job [k] with status ERROR. *)
Definition recorded_ERROR (k : string) (e : Event) : bool :=
  match e with
  | EvUpdateItem (VStr k') sets _ true =>
    String.eqb k' k && bool_decide (status_of sets = Some "ERROR")
  | _ => false
  end.

(** The item an unconditional update leaves under key [k]. *)
Definition updated_item (sets : list (string * AttrValue)) (k : string)
    (t : Table) : Item :=
  apply_sets sets (default {[ "id" := AV_S k ]} (t !! k)).

(** The key under which the store applies an update made in [w], if it
    applies it: the call does not fail and the key is a string. *)
Definition store_accepts (env : Env) (id : jsval) (w : World) : option string :=
  match ddb_fault env (tick w), id with
  | None, VStr k => Some k
  | _, _ => None
  end.

(** The events of one [updateStatus] call. *)
Definition update_events (id : jsval) (sets : list (string * AttrValue))
    (ok : bool) : list Event :=
  [EvConsole Info "Updating status for"; EvUpdateItem id sets false ok]
  ++ (if ok then [] else [EvConsole Error "Failed to update status for"]).

(** The world one [updateStatus] call leaves. *)
Definition after_update (env : Env) (id : jsval) (status : string)
    (errorMsg : option string) (w : World) : World :=
  let sets :=
    DeployService.expressionAttributes status (now env (tick w)) errorMsg in
  match store_accepts env id w with
  | Some k =>
    mkWorld (<[k := updated_item sets k (table w)]> (table w))
            (trace w ++ update_events id sets true) (S (tick w))
  | None =>
    mkWorld (table w) (trace w ++ update_events id sets false) (S (tick w))
  end.

(** The [SET] lists of the consumer's three writes. *)
Definition sets_progress (status t : string) : list (string * AttrValue) :=
  [("status", AV_S status); ("updatedAt", AV_S t)].

Definition sets_error (t msg : string) : list (string * AttrValue) :=
  [("status", AV_S "ERROR"); ("updatedAt", AV_S t); ("error", AV_S msg)].

(** The events up to the first status write of a delivery. *)
Definition prelude : list Event :=
  [EvConsole Info "--- NEW MESSAGE RECEIVED ---";
   EvConsole Info "Raw Message Body:";
   EvConsole Info "Parsed ID:";
   EvConsole Info "Parsed Repo:"].

(** The four courses the processing of one message can take, as the
    completion and the events it adds:
    - no store call at all (no receipt handle, or no job id);
    - the build fails: IN_PROGRESS, then ERROR, no delete;
    - the build succeeds and the delete succeeds;
    - the build succeeds and the delete call throws. *)
Inductive delivery (handle : string) : Result unit -> list Event -> Prop :=
  | delivery_dropped evs :
      forallb is_console evs = true ->
      delivery handle (Ok tt) evs
  | delivery_build_failed id t1 ok1 t3 msg ok3 :
      msg <> "" ->
      delivery handle (Ok tt)
        (prelude
         ++ update_events id (sets_progress "IN_PROGRESS" t1) ok1
         ++ [EvConsole Info "Triggering AWS CodeBuild project for";
             EvBuild id false;
             EvConsole Error "Build failed for ID"]
         ++ update_events id (sets_error t3 msg) ok3)
  | delivery_deployed id t1 ok1 t2 ok2 :
      delivery handle (Ok tt)
        (prelude
         ++ update_events id (sets_progress "IN_PROGRESS" t1) ok1
         ++ [EvConsole Info "Triggering AWS CodeBuild project for";
             EvBuild id true;
             EvConsole Info "CodeBuild finished successfully for"]
         ++ update_events id (sets_progress "DEPLOYED" t2) ok2
         ++ [EvDeleteMessage handle true;
             EvConsole Info "Message processed and deleted.";
             EvConsole Info "----------------------------"])
  | delivery_delete_failed id t1 ok1 t2 ok2 e :
      delivery handle (Throw e)
        (prelude
         ++ update_events id (sets_progress "IN_PROGRESS" t1) ok1
         ++ [EvConsole Info "Triggering AWS CodeBuild project for";
             EvBuild id true;
             EvConsole Info "CodeBuild finished successfully for"]
         ++ update_events id (sets_progress "DEPLOYED" t2) ok2
         ++ [EvDeleteMessage handle false]).

(** The three ways a message carries no job id (lines 115-124). *)
Definition body_absent (message : Message) : bool :=
  negb (truthy_str (Body message)).

Definition body_unparsable (env : Env) (message : Message) : bool :=
  match Body message with
  | Some raw =>
    match JSON_parse env raw with Throw _ => true | Ok _ => false end
  | None => false
  end.

Definition body_lacks_id (env : Env) (message : Message) : bool :=
  match Body message with
  | Some raw =>
    match JSON_parse env raw with
    | Ok v => negb (truthy (get_prop_opt v "id"))
    | Throw _ => false
    end
  | None => false
  end.

Definition malformed (env : Env) (message : Message) : bool :=
  body_absent message || body_unparsable env message
  || body_lacks_id env message.

(** [m] relates the world it starts in to the world it leaves by [R],
    however it completes. *)
Definition preserves (R : World -> World -> Prop) {A} (m : M A) : Prop :=
  forall w r w', m w = (r, w') -> R w w'.

(** How the [error] attribute of job [k] may change between two worlds:
    a job in ERROR keeps having its error set, an error appears only with
    a recorded ERROR write, and an error never disappears. *)
Definition error_kept (w w' : World) : Prop :=
  exists evs,
    trace w' = trace w ++ evs
    /\ forall k,
         ((is_ERROR (table w) k = true -> has_error (table w) k = true) ->
          is_ERROR (table w') k = true -> has_error (table w') k = true)
         /\ (has_error (table w') k = true ->
             has_error (table w) k = true
             \/ existsb (recorded_ERROR k) evs = true)
         /\ (has_error (table w) k = true -> has_error (table w') k = true).

(** The events of one [postToConnection] call, by the gateway's answer:
    a failure is logged unless the thrown object has a [statusCode]
    property equal to 410. *)
Definition post_events (connectionId data : jsval) (fault : option JsError)
    : list Event :=
  match fault with
  | None => [EvPostToConnection connectionId data true]
  | Some e =>
    EvPostToConnection connectionId data false
    :: (if bool_decide (Js.statusCode e = Some 410%Z) then []
        else [EvConsole Error "Error posting to connection:"])
  end.

(** The value the notifier is to send as [error]: the record's error
    attribute when it is set and truthy, [null] otherwise. *)
Definition error_to_send (img : Item) : jsval :=
  match img !! "error" with
  | Some a => if truthy (unmarshall_attr a) then unmarshall_attr a else VNull
  | None => VNull
  end.

(** The record is one for which the handler pushes: a MODIFY with a new
    image whose [connectionId] is truthy. *)
Definition listening (record : StreamHandler.StreamRecord) : Prop :=
  StreamHandler.eventName record = "MODIFY"
  /\ exists img,
       StreamHandler.NewImage record = Some img
       /\ truthy (field (unmarshall img) "connectionId") = true.

(** The largest integer a JavaScript number holds exactly. *)
Definition MAX_SAFE_INTEGER : Z := 9007199254740991.

(** [unmarshall] turns the attribute into a value of [jsval]: every
    attribute but a number beyond the safe integers, for which it gives a
    BigInt that [JSON.stringify] refuses. *)
Definition safe_attr (a : AttrValue) : bool :=
  match a with
  | AV_N n => (Z.abs n <=? MAX_SAFE_INTEGER)%Z
  | _ => true
  end.

Definition safe_image (img : Item) : bool :=
  forallb (fun kv => safe_attr kv.2) (map_to_list img).

Definition safe_record (record : StreamHandler.StreamRecord) : bool :=
  match StreamHandler.NewImage record with
  | Some img => safe_image img
  | None => true
  end.

(** The [connectionId] of the record's new image is as the programs write
    it.  The only write is the registration's (index.js, lines 82-96),
    with [requestContext.connectionId]: the attribute is absent or a
    non-empty string. *)
Definition connection_as_registered (record : StreamHandler.StreamRecord)
    : bool :=
  match StreamHandler.NewImage record with
  | Some img =>
    match img !! "connectionId" with
    | None => true
    | Some (AV_S c) => negb (String.eqb c "")
    | Some _ => false
    end
  | None => true
  end.

(** The job's [connectionId] attribute is present. *)
Definition has_connection (record : StreamHandler.StreamRecord) : Prop :=
  exists img a,
    StreamHandler.NewImage record = Some img
    /\ img !! "connectionId" = Some a.

(** A status push for the new image of [record]. *)
Definition status_push_of (record : StreamHandler.StreamRecord)
    (e : Event) : Prop :=
  exists img cid fields ok,
    StreamHandler.NewImage record = Some img
    /\ e = EvPostToConnection cid (VObj fields) ok
    /\ assoc "type" fields = Some (VStr "STATUS_UPDATE")
    /\ assoc "error" fields = Some (error_to_send img).

(** Every push between the two worlds is a status push for a record of
    [event]. *)
Definition pushes_from (event : list StreamHandler.StreamRecord)
    (w w' : World) : Prop :=
  exists evs,
    trace w' = trace w ++ evs
    /\ Forall (fun e => is_post e = true ->
                        exists record, In record event
                                       /\ status_push_of record e) evs.

(** The calls of [updateStatus] that the consumer makes: an error message
    goes with ERROR and with nothing else. *)
Definition consumer_call (status : string) (errorMsg : option string) : Prop :=
  (status = "ERROR" /\ truthy_str errorMsg = true)
  \/ (status <> "ERROR" /\ errorMsg = None).

End Observe.
Export Observe.

(** ** Concrete runs *)

Module Scenario.

Definition dquote : string :=
  String (Ascii.Ascii false true false false false true false false) "".

(** The queue body for job abc123, as sent by the upload service. *)
Definition body_abc123 : string :=
  "{" +:+ dquote +:+ "id" +:+ dquote +:+ ":" +:+ dquote +:+ "abc123"
      +:+ dquote +:+ "}".

(** [JSON.parse] on the texts used below. *)
Definition parse (s : string) : Result jsval :=
  if String.eqb s body_abc123 then Ok (VObj [("id", VStr "abc123")])
  else if String.eqb s "{}" then Ok (VObj [])
  else if String.eqb s "null" then Ok VNull
  else Throw (Error_ "Unexpected token in JSON").

Definition clock (n : nat) : string := "t" +:+ pretty n.

Definition message_abc123 : Message :=
  mkMessage (Some "receipt-1") (Some body_abc123).

(** An environment in which the queue keeps delivering [message_abc123],
    the external call number [n] to CodeBuild fails when [build_fails n],
    and the one to DynamoDB fails when [store_fails n]. *)
Definition env_with (received : Result ReceiveOutput)
    (build_fails store_fails : nat -> bool) : Env :=
  mkEnv parse clock
    (fun _ => received)
    (fun _ _ => None)
    (fun n => if store_fails n
              then Some (thrown (mkServiceException "InternalServerError"
                                   500 "Internal server error"))
              else None)
    (fun n _ => if build_fails n
                then Some (Error_ "npm install failed") else None)
    (fun _ _ => None).

Definition env_of (build_fails store_fails : nat -> bool) : Env :=
  env_with (Ok (mkReceive (Some [message_abc123]))) build_fails store_fails.

Definition env_fine : Env := env_of (fun _ => false) (fun _ => false).

(** A message whose body parses to an object without [id], and a queue
    that delivers it. *)
Definition message_no_id : Message := mkMessage (Some "receipt-2") (Some "{}").

Definition env_no_id : Env :=
  env_with (Ok (mkReceive (Some [message_no_id])))
           (fun _ => false) (fun _ => false).


(** The third external call fails at the store.  When one message is
    processed from tick 0 the calls are: IN_PROGRESS write (0), build (1),
    DEPLOYED write (2), delete (3). *)
Definition env_deployed_write_lost : Env :=
  env_of (fun _ => false) (fun n => Nat.eqb n 2).

(** The first build fails and later ones succeed.  Polling from tick 0 the
    calls are: receive (0), IN_PROGRESS write (1), build (2), ERROR write
    (3), then receive (4), IN_PROGRESS write (5), build (6), DEPLOYED write
    (7), delete (8). *)
Definition env_first_build_fails : Env :=
  env_of (fun n => Nat.eqb n 2) (fun _ => false).

(** A gateway that answers every post with the error [e]. *)
Definition env_gateway_fails (e : JsError) : Env :=
  mkEnv parse clock (fun _ => Ok (mkReceive None)) (fun _ _ => None)
        (fun _ => None) (fun _ _ => None) (fun _ _ => Some e).

(** The gateway's answer for a connection that is closed (HTTP 410), as
    the v3 client throws it. *)
Definition gone_exception : ServiceException :=
  mkServiceException "GoneException" 410 "GoneException".

Definition gone : JsError := thrown gone_exception.

(** New images of job abc123, and the change-feed record for the failed
    job with a registered connection. *)
Definition image (connection : option AttrValue) (status : string)
    (error : option AttrValue) : Item :=
  let base : Item := {[ "id" := AV_S "abc123"; "status" := AV_S status ]} in
  let base := match connection with
              | Some c => <["connectionId" := c]> base
              | None => base
              end in
  match error with
  | Some e => <["error" := e]> base
  | None => base
  end.

Definition record_failed : StreamHandler.StreamRecord :=
  StreamHandler.mkRecord "MODIFY"
    (Some (image (Some (AV_S "conn-1")) "ERROR"
                 (Some (AV_S "npm install failed")))).

(** Register requests on connection conn-1: for job abc123, and with an
    empty object as body. *)
Definition register_abc123 : SocketHandler.RequestEvent :=
  SocketHandler.mkRequest "register" "conn-1" (Some body_abc123).

Definition register_no_id : SocketHandler.RequestEvent :=
  SocketHandler.mkRequest "register" "conn-1" (Some "{}").

(** The job as the upload service created it. *)
Definition job_pending : Item :=
  {[ "id" := AV_S "abc123"; "status" := AV_S "PENDING";
     "createdAt" := AV_S "t" ]}.

Definition w_pending : World := mkWorld {[ "abc123" := job_pending ]} [] 0.

End Scenario.

(** ** Reading a run, continued *)

Module Effects.

(** [w] with [evs] added to the trace. *)
Definition add_events (w : World) (evs : list Event) : World :=
  mkWorld (table w) (trace w ++ evs) (tick w).

(** [w] after one more external call, with [evs] added to the trace. *)
Definition after_call (w : World) (evs : list Event) : World :=
  mkWorld (table w) (trace w ++ evs) (S (tick w)).


Definition is_receive (e : Event) : bool :=
  match e with EvReceive _ => true | _ => false end.

(** [err.message || "Unknown error"] (line 149). *)
Definition error_text (err : JsError) : string :=
  if String.eqb (message err) "" then "Unknown error" else message err.

(** [body?.id] of a message, [undefined] when the body does not parse. *)
Definition job_id (env : Env) (message : Message) : jsval :=
  match Body message with
  | Some raw =>
    match JSON_parse env raw with
    | Ok v => get_prop_opt v "id"
    | Throw _ => VUndefined
    end
  | None => VUndefined
  end.


(** The course of a delivery of a well-formed message with handle [h] and
    job id [id], written out along the answers of the services. *)
Definition delivered (env : Env) (h : string) (id : jsval) (w : World)
    : Result unit * World :=
  let w1 := after_update env id "IN_PROGRESS" None (add_events w prelude) in
  match startBuildAndWait_result env (tick w1) id with
  | Some e =>
    (Ok tt,
     after_update env id "ERROR" (Some (error_text e))
       (after_call w1
          [EvConsole Info "Triggering AWS CodeBuild project for";
           EvBuild id false;
           EvConsole Error "Build failed for ID"]))
  | None =>
    let w2 :=
      after_update env id "DEPLOYED" None
        (after_call w1
           [EvConsole Info "Triggering AWS CodeBuild project for";
            EvBuild id true;
            EvConsole Info "CodeBuild finished successfully for"]) in
    match sqs_delete env (tick w2) h with
    | None =>
      (Ok tt,
       after_call w2
         [EvDeleteMessage h true;
          EvConsole Info "Message processed and deleted.";
          EvConsole Info "----------------------------"])
    | Some e => (Throw e, after_call w2 [EvDeleteMessage h false])
    end
  end.

(** What the consumer may add to the trace: console entries, receives,
    builds, deletes, sleeps, and unconditional updates that set [status]
    to IN_PROGRESS, DEPLOYED or ERROR and do not set [connectionId]. *)
Definition consumer_event (e : Event) : bool :=
  match e with
  | EvUpdateItem _ sets conditional _ =>
    negb conditional
    && bool_decide (status_of sets = Some "IN_PROGRESS"
                    \/ status_of sets = Some "DEPLOYED"
                    \/ status_of sets = Some "ERROR")
    && bool_decide (set_value "connectionId" sets = None)
    && bool_decide (set_value "createdAt" sets = None)
    && bool_decide (set_value "id" sets = None)
  | EvPostToConnection _ _ _ => false
  | _ => true
  end.

(** Between [w] and [w'] the trace only grew, by events satisfying [p]. *)
Definition adds (p : Event -> bool) (w w' : World) : Prop :=
  exists evs, trace w' = trace w ++ evs /\ forallb p evs = true.

(** Between [w] and [w'] no record disappeared and every record kept the
    attributes other than [status], [updatedAt] and [error]. *)
Definition registration_kept (w w' : World) : Prop :=
  forall k item,
    table w !! k = Some item ->
    exists item',
      table w' !! k = Some item'
      /\ forall attr,
           attr <> "status" -> attr <> "updatedAt" -> attr <> "error" ->
           item' !! attr = item !! attr.

(** The push the notifier makes for a record, as connection and payload,
    if it makes one. *)
Definition push_of (record : StreamHandler.StreamRecord)
    : option (jsval * jsval) :=
  if String.eqb (StreamHandler.eventName record) "MODIFY" then
    match StreamHandler.NewImage record with
    | Some img =>
      let d := unmarshall img in
      if truthy (field d "connectionId")
      then Some (field d "connectionId",
                 JSON_stringify (StreamHandler.status_update d))
      else None
    | None => None
    end
  else None.

(** The pushes of a trace, in order, as connection and payload. *)
Definition posts (evs : list Event) : list (jsval * jsval) :=
  omap (fun e => match e with
                 | EvPostToConnection c d _ => Some (c, d)
                 | _ => None
                 end) evs.

(** The property [k] of a status update: the image's attribute, or
    nothing when the image has none. *)
Definition copied (img : Item) (k : string) : list (string * jsval) :=
  match img !! k with
  | Some a => [(k, unmarshall_attr a)]
  | None => []
  end.

(** The confirmation sent after a registration for [deploymentId]. *)
Definition confirmation (deploymentId : string) : jsval :=
  VObj [("type", VStr "SYSTEM");
        ("message", VStr ("Successfully registered for updates on "
                          +:+ deploymentId))].

(** The gateway's answer is one of the v3 client: what it throws has no
    [statusCode] property (see [thrown]). *)
Definition sdk_fault (fault : option JsError) : bool :=
  match fault with
  | Some e => bool_decide (Js.statusCode e = None)
  | None => true
  end.

(** Whether the store applies an update made in [w]. *)
Definition accepted (env : Env) (id : jsval) (w : World) : bool :=
  match store_accepts env id w with Some _ => true | None => false end.

End Effects.
Export Effects.

(** ** More concrete runs *)

Module Scenario2.

(** The build fails at external call 1: the build of a message processed
    from tick 0. *)
Definition env_build_fails : Env :=
  Scenario.env_of (fun n => Nat.eqb n 1) (fun _ => false).

(** Job abc123 with connection conn-1 registered. *)
Definition job_registered : Item :=
  <["connectionId" := AV_S "conn-1"]> Scenario.job_pending.

Definition w_registered : World :=
  mkWorld {[ "abc123" := job_registered ]} [] 0.

(** A world with no job record at all. *)
Definition w_empty : World := mkWorld ∅ [] 0.

(** A queue that answers with no message. *)
Definition env_idle : Env :=
  Scenario.env_with (Ok (mkReceive None)) (fun _ => false) (fun _ => false).

(** A register request whose [id] is the number 7, and an environment
    whose [JSON.parse] knows its body. *)
Definition body_numeric_id : string :=
  "{" +:+ Scenario.dquote +:+ "id" +:+ Scenario.dquote +:+ ":7}".

Definition env_numeric_id : Env :=
  mkEnv (fun s => if String.eqb s body_numeric_id
                  then Ok (VObj [("id", VNum 7)]) else Scenario.parse s)
        Scenario.clock (fun _ => Ok (mkReceive None)) (fun _ _ => None)
        (fun _ => None) (fun _ _ => None) (fun _ _ => None).

Definition register_numeric_id : SocketHandler.RequestEvent :=
  SocketHandler.mkRequest "register" "conn-1" (Some body_numeric_id).

(** Other requests on the socket. *)
Definition disconnect_conn1 : SocketHandler.RequestEvent :=
  SocketHandler.mkRequest "$disconnect" "conn-1" None.

Definition register_null : SocketHandler.RequestEvent :=
  SocketHandler.mkRequest "register" "conn-1" (Some "null").

Definition register_abc123_conn2 : SocketHandler.RequestEvent :=
  SocketHandler.mkRequest "register" "conn-2" (Some Scenario.body_abc123).

End Scenario2.

(** ** upload-service/src/index.ts *)

Module UploadService.

(** The observable actions of the upload service, in program order. *)
Inductive UploadEvent : Type :=
  | UpConsole (lvl : Level) (text : string)
  | UpPut (item : Item) (ok : bool)
  | UpClone (repoUrl : jsval) (repoPath : string) (ok : bool)
  | UpUpload (s3Key file : string) (ok : bool)
  | UpSend (id : string) (repoUrl : jsval) (ok : bool)
  | UpRespond (status : Z) (body : list (string * jsval)).

(** The table, the messages accepted by the queue (oldest first), the
    trace and the counter of external calls. *)
Record UploadWorld : Type := mkUploadWorld {
  up_table : Table;
  up_queue : list (string * jsval);
  up_trace : list UploadEvent;
  up_tick : nat
}.

(** What the service's surroundings answer.  [generateRandomString]
    (./utils.js), [getAllFiles] (./fileupload.js), [s3Upload]
    (./s3upload.js, taken to return a promise, as its results are handed to
    [Promise.allSettled]) and [sendSqsMessage] (./sqsSender.js) are not part
    of the sources at hand; each external call reads its answer at the
    current tick. *)
Record UploadEnv : Type := mkUploadEnv {
  dirname : string;
  generateRandomString : nat -> string;
  up_now : nat -> string;
  put_fault : nat -> option JsError;
  clone_fault : nat -> option JsError;
  getAllFiles : string -> Result (list string);
  s3Upload_fault : nat -> string -> option JsError;
  send_fault : nat -> option JsError
}.

Definition U (A : Type) : Type := UploadWorld -> Result A * UploadWorld.

#[export] Instance U_ret : MRet U := fun A a w => (Ok a, w).

#[export] Instance U_bind : MBind U := fun A B f m w =>
  match m w with
  | (Ok a, w') => f a w'
  | (Throw e, w') => (Throw e, w')
  end.

Definition up_throw {A} (e : JsError) : U A := fun w => (Throw e, w).

Definition up_lift {A} (r : Result A) : U A := fun w => (r, w).

Definition up_try_catch {A} (m : U A) (h : JsError -> U A) : U A := fun w =>
  match m w with
  | (Ok a, w') => (Ok a, w')
  | (Throw e, w') => h e w'
  end.

Definition up_emit (e : UploadEvent) : U unit := fun w =>
  (Ok tt, mkUploadWorld (up_table w) (up_queue w) (up_trace w ++ [e])
            (up_tick w)).

Definition up_next_tick : U nat := fun w =>
  (Ok (up_tick w),
   mkUploadWorld (up_table w) (up_queue w) (up_trace w) (S (up_tick w))).

Definition up_log (text : string) : U unit := up_emit (UpConsole Info text).
Definition up_error (text : string) : U unit := up_emit (UpConsole Error text).

(** [String.prototype.toLowerCase] on ASCII text. *)
Definition lower_ascii (c : Ascii.ascii) : Ascii.ascii :=
  let n := Ascii.nat_of_ascii c in
  if (65 <=? n)%nat && (n <=? 90)%nat then Ascii.ascii_of_nat (n + 32) else c.

Fixpoint toLowerCase (s : string) : string :=
  match s with
  | EmptyString => EmptyString
  | String c rest => String (lower_ascii c) (toLowerCase rest)
  end.

(** [s.substring(n)]. *)
Fixpoint substring_from (n : nat) (s : string) : string :=
  match n, s with
  | O, _ => s
  | S n', String _ rest => substring_from n' rest
  | S _, EmptyString => EmptyString
  end.

Section WithEnv.
Context (env : UploadEnv).

(** [ddbDocClient.send(new PutCommand({Item}))]: the item replaces
    whatever was stored under its key.  The key [id] must be a non-empty
    string. *)
Definition ddb_put (id : string) (item : Item) : U unit :=
  n ← up_next_tick;
  match put_fault env n with
  | Some e => up_emit (UpPut item false) ;; up_throw e
  | None =>
    if String.eqb id "" then
      up_emit (UpPut item false) ;;
      up_throw (thrown (mkServiceException "ValidationException" 400
                          "One or more parameter values are not valid"))
    else
      (fun w => (Ok tt, mkUploadWorld (<[id := item]> (up_table w))
                          (up_queue w) (up_trace w) (up_tick w))) ;;
      up_emit (UpPut item true)
  end.

(** [simpleGit().clone(repoUrl, repoPath)]. *)
Definition git_clone (repoUrl : jsval) (repoPath : string) : U unit :=
  n ← up_next_tick;
  match clone_fault env n with
  | Some e => up_emit (UpClone repoUrl repoPath false) ;; up_throw e
  | None => up_emit (UpClone repoUrl repoPath true)
  end.

(** Lines 63-69: one upload per file, all awaited by
    [Promise.allSettled], which never rejects. *)
Fixpoint upload_all (id repoPath : string) (files : list string) : U unit :=
  match files with
  | [] => mret tt
  | file :: rest =>
    let s3Key := "repos/" +:+ id +:+ "/"
                 +:+ substring_from (String.length repoPath + 1) file in
    n ← up_next_tick;
    up_emit (UpUpload s3Key file
               (match s3Upload_fault env n s3Key with
                | None => true
                | Some _ => false
                end)) ;;
    upload_all id repoPath rest
  end.

(** [sendSqsMessage({id, repoUrl})]. *)
Definition sendSqsMessage (id : string) (repoUrl : jsval) : U unit :=
  n ← up_next_tick;
  match send_fault env n with
  | Some e => up_emit (UpSend id repoUrl false) ;; up_throw e
  | None =>
    (fun w => (Ok tt, mkUploadWorld (up_table w)
                        (up_queue w ++ [(id, repoUrl)]) (up_trace w)
                        (up_tick w))) ;;
    up_emit (UpSend id repoUrl true)
  end.

(** [new Date().toISOString()]. *)
Definition up_date : U string := fun w => (Ok (up_now env (up_tick w)), w).

(** Lines 39-40: the id of the deployment. *)
Definition new_id : U string :=
  n ← up_next_tick;
  mret (toLowerCase (generateRandomString env n)).

(** Lines 42-83: the [try] block from the creation of the record on, with
    [repoUrl] and [id] assigned. *)
Definition create_and_queue (repoUrl : jsval) (id : string) : U unit :=
  up_log "Creating initial status 'PENDING' for id:" ;;
  createdAt ← up_date;
  ddb_put id {[ "id" := AV_S id; "status" := AV_S "PENDING";
                "createdAt" := AV_S createdAt ]} ;;
  let repoPath := dirname env +:+ "/repos/" +:+ id in
  git_clone repoUrl repoPath ;;
  files ← up_lift (getAllFiles env repoPath);
  up_log "Files:" ;;
  up_log "Repository URL:" ;;
  upload_all id repoPath files ;;
  up_log "Queueing deployment ID for worker:" ;;
  sendSqsMessage id repoUrl ;;
  up_emit (UpRespond 200
             [("message", VStr ("Deployment " +:+ id
                                +:+ " successfully queued!"));
              ("id", VStr id)]).

(** Lines 86-107: the [catch] block, entered with the value
    [deploymentId] had when the exception was thrown. *)
Definition on_deploy_failure (deploymentId : string) (error : JsError)
    : U unit :=
  up_error "Error:" ;;
  (if negb (String.eqb deploymentId "") then
     up_try_catch
       (updatedAt ← up_date;
        ddb_put deploymentId
          {[ "id" := AV_S deploymentId; "status" := AV_S "ERROR";
             "error" := AV_S (if String.eqb (message error) ""
                              then "Upload service failure"
                              else message error);
             "updatedAt" := AV_S updatedAt ]})
       (fun dbError =>
          up_error "Failed to update status to ERROR in DynamoDB:")
   else mret tt) ;;
  up_emit (UpRespond 500 [("error", VStr "Failed to deploy repository")]).

(** Lines 32-108: the handler of [POST /deploy], given [req.body]. *)
Definition deploy (req_body : jsval) : U unit := fun w =>
  match get_prop req_body "repoUrl" with
  | Throw e => on_deploy_failure "" e w
  | Ok repoUrl =>
    match new_id w with
    | (Ok id, w1) =>
      match create_and_queue repoUrl id w1 with
      | (Ok _, w2) => (Ok tt, w2)
      | (Throw e, w2) => on_deploy_failure id e w2
      end
    | (Throw e, w1) => on_deploy_failure "" e w1
    end
  end.

End WithEnv.

(** ** Reading a run of the upload service *)

Definition up_events_of {A} (m : U A) (w : UploadWorld) : list UploadEvent :=
  drop (length (up_trace w)) (up_trace (m w).2).

Definition is_respond (e : UploadEvent) : bool :=
  match e with UpRespond _ _ => true | _ => false end.

Definition is_send (e : UploadEvent) : bool :=
  match e with UpSend _ _ _ => true | _ => false end.

(** A recorded put of the PENDING record of job [id]. *)
Definition is_pending_put (id : string) (e : UploadEvent) : bool :=
  match e with
  | UpPut item true =>
    bool_decide (item !! "id" = Some (AV_S id)
                 /\ item !! "status" = Some (AV_S "PENDING"))
  | _ => false
  end.

Definition is_sent (e : UploadEvent) : bool :=
  match e with UpSend _ _ ok => ok | _ => false end.

(** The events of [upload_all] started at call [n]. *)
Fixpoint upload_events (env : UploadEnv) (id repoPath : string)
    (files : list string) (n : nat) : list UploadEvent :=
  match files with
  | [] => []
  | file :: rest =>
    let s3Key := "repos/" +:+ id +:+ "/"
                 +:+ substring_from (String.length repoPath + 1) file in
    UpUpload s3Key file
      (match s3Upload_fault env n s3Key with
       | None => true
       | Some _ => false
       end)
    :: upload_events env id repoPath rest (S n)
  end.

(** The PENDING record of a new job and the ERROR record that replaces it
    (lines 46-50 and 94-99). *)
Definition pending_item (id createdAt : string) : Item :=
  {[ "id" := AV_S id; "status" := AV_S "PENDING";
     "createdAt" := AV_S createdAt ]}.

Definition error_item (id updatedAt : string) (error : JsError) : Item :=
  {[ "id" := AV_S id; "status" := AV_S "ERROR";
     "error" := AV_S (if String.eqb (message error) ""
                      then "Upload service failure" else message error);
     "updatedAt" := AV_S updatedAt ]}.

(** Every send in [evs] is for the job whose PENDING record was put
    before it. *)
Fixpoint sends_follow_put (created : option string) (evs : list UploadEvent)
    : bool :=
  match evs with
  | [] => true
  | UpPut item true :: rest =>
    match item !! "id", item !! "status" with
    | Some (AV_S id), Some (AV_S "PENDING") => sends_follow_put (Some id) rest
    | _, _ => sends_follow_put created rest
    end
  | UpSend id _ _ :: rest =>
    match created with
    | Some id' => String.eqb id id' && sends_follow_put created rest
    | None => false
    end
  | _ :: rest => sends_follow_put created rest
  end.

End UploadService.

(** ** Concrete runs of the upload service *)

Module UploadScenario.
Import UploadService.

Definition request : jsval :=
  VObj [("repoUrl", VStr "https://github.com/user/site.git")].

Definition site_files : list string :=
  ["/app/dist/repos/abc12/index.html"; "/app/dist/repos/abc12/src/App.jsx"].

(** The random id is "AbC12"; every upload to S3 fails; the clone fails
    when [clone_down]. *)
Definition up_env (clone_down : bool) : UploadEnv :=
  mkUploadEnv "/app/dist"
    (fun _ => "AbC12")
    (fun n => "2025-01-01T00:00:0" +:+ pretty n +:+ ".000Z")
    (fun _ => None)
    (fun _ => if clone_down
              then Some (Error_ "fatal: repository not found")
              else None)
    (fun _ => Ok site_files)
    (fun _ _ => Some (Error_ "AccessDenied"))
    (fun _ => None).

(** An earlier job is in the table. *)
Definition w_start : UploadWorld :=
  mkUploadWorld {[ "abc123" := Scenario.job_pending ]} [] [] 0.

End UploadScenario.

(** ** client/src/App.jsx *)

Module Client.

(** An entry of [logs]: [{ message, type }]. *)
Record LogEntry : Type := mkLog {
  log_message : string;
  log_type : string
}.

(** The objects given to [setResult]: [{ type: 'error', message }] and
    [{ type: 'success', url, id }]. *)
Inductive DeployResult : Type :=
  | ResultError (message : jsval)
  | ResultSuccess (url : string) (id : jsval).

(** The state of [App] ([status], [logs], [result]), as the handlers
    leave it, and what the component did to the outside: the bodies of its requests to the upload service,
    the ids for which a WebSocket was opened, the messages sent on the
    socket and the number of calls of [ws.close()]. *)
Record View : Type := mkView {
  status : jsval;
  logs : list LogEntry;
  result : option DeployResult;
  requests : list jsval;
  sockets : list jsval;
  sent : list jsval;
  closes : nat
}.

(** [useState("IDLE")], [useState([])], [useState(null)]. *)
Definition initial : View := mkView (VStr "IDLE") [] None [] [] [] 0.

(** What the browser and the build configuration answer: [JSON.parse],
    the text of [JSON.stringify], [VITE_SITE_BASE_URL] ([None] when it is
    not set) and whether [new WebSocket(WEBSOCKET_URL)] throws. *)
Record ClientEnv : Type := mkClientEnv {
  parse : string -> Result jsval;
  JSON_text : jsval -> string;
  SITE_BASE_URL : option string;
  WebSocket_fault : option JsError
}.

(** What [fetch] gives: a rejection, or a response with its [ok] flag and
    the outcome of [response.json()]. *)
Definition Fetched : Type := Result (bool * Result jsval).

(** [response.ok]. *)
Definition response_ok (code : Z) : bool :=
  ((200 <=? code) && (code <=? 299))%Z.

Definition C (A : Type) : Type := View -> Result A * View.

#[export] Instance C_ret : MRet C := fun A a v => (Ok a, v).

#[export] Instance C_bind : MBind C := fun A B f m v =>
  match m v with
  | (Ok a, v') => f a v'
  | (Throw e, v') => (Throw e, v')
  end.

Definition c_throw {A} (e : JsError) : C A := fun v => (Throw e, v).

Definition c_lift {A} (r : Result A) : C A := fun v => (r, v).

Definition c_try_catch {A} (m : C A) (h : JsError -> C A) : C A := fun v =>
  match m v with
  | (Ok a, v') => (Ok a, v')
  | (Throw e, v') => h e v'
  end.

Definition setStatus (s : jsval) : C unit := fun v =>
  (Ok tt, mkView s (logs v) (result v) (requests v) (sockets v) (sent v)
            (closes v)).

Definition setLogs (l : list LogEntry) : C unit := fun v =>
  (Ok tt, mkView (status v) l (result v) (requests v) (sockets v) (sent v)
            (closes v)).

Definition setResult (r : option DeployResult) : C unit := fun v =>
  (Ok tt, mkView (status v) (logs v) r (requests v) (sockets v) (sent v)
            (closes v)).

(** Lines 67-69. *)
Definition addLog (message type : string) : C unit := fun v =>
  (Ok tt, mkView (status v) (logs v ++ [mkLog message type]) (result v)
            (requests v) (sockets v) (sent v) (closes v)).

Definition fetch_post (body : jsval) : C unit := fun v =>
  (Ok tt, mkView (status v) (logs v) (result v) (requests v ++ [body])
            (sockets v) (sent v) (closes v)).

Definition ws_send (data : jsval) : C unit := fun v =>
  (Ok tt, mkView (status v) (logs v) (result v) (requests v) (sockets v)
            (sent v ++ [data]) (closes v)).

Definition ws_close : C unit := fun v =>
  (Ok tt, mkView (status v) (logs v) (result v) (requests v) (sockets v)
            (sent v) (S (closes v))).

(** [v === s] for a string literal [s]. *)
Definition is_string (v : jsval) (s : string) : bool :=
  match v with
  | VStr s' => String.eqb s' s
  | _ => false
  end.

(** [s.replace(/^https?:\/\//, '')]. *)
Definition strip_scheme (s : string) : string :=
  if String.prefix "https://" s then UploadService.substring_from 8 s
  else if String.prefix "http://" s then UploadService.substring_from 7 s
  else s.

Section WithEnv.
Context (env : ClientEnv).

(** Lines 76-79: [ws.onopen] of the socket set up for [id]. *)
Definition onopen (id : jsval) : C unit :=
  addLog "WebSocket Connected. Registering for updates..." "INFO" ;;
  ws_send (JSON_stringify [("action", VStr "register"); ("id", id)]).

(** Lines 81-107: [ws.onmessage] of the socket set up for [id], given
    [event.data]. *)
Definition onmessage (id : jsval) (event_data : string) : C unit :=
  data ← c_lift (parse env event_data);
  addLog ("Received message: " +:+ JSON_text env data) "INFO" ;;
  type ← c_lift (get_prop data "type");
  (if is_string type "SYSTEM" then
     message ← c_lift (get_prop data "message");
     addLog ("[System] " +:+ ToString message) "INFO"
   else mret tt) ;;
  type ← c_lift (get_prop data "type");
  if is_string type "STATUS_UPDATE" then
    st ← c_lift (get_prop data "status");
    setStatus st ;;
    st ← c_lift (get_prop data "status");
    (if is_string st "ERROR" then
       error ← c_lift (get_prop data "error");
       let errorMsg :=
         js_or error (VStr "Unknown build error. Check CodeBuild logs.") in
       addLog ("Build failed: " +:+ ToString errorMsg) "ERROR" ;;
       setResult (Some (ResultError errorMsg)) ;;
       ws_close
     else mret tt) ;;
    st ← c_lift (get_prop data "status");
    if is_string st "DEPLOYED" then
      addLog "Deployment successful!" "INFO" ;;
      match SITE_BASE_URL env with
      | None => c_throw (Error_ "Cannot read properties of undefined")
      | Some base =>
        let finalUrl := "http://" +:+ ToString id +:+ "."
                        +:+ strip_scheme base in
        setResult (Some (ResultSuccess finalUrl id)) ;;
        ws_close
      end
    else mret tt
  else mret tt.

(** Line 109. *)
Definition onclose : C unit := addLog "WebSocket Disconnected." "INFO".

(** Lines 110-116. *)
Definition onerror : C unit :=
  let errorMsg := "WebSocket connection failed. Check URL or network." in
  addLog errorMsg "ERROR" ;;
  setStatus (VStr "ERROR") ;;
  setResult (Some (ResultError (VStr errorMsg))).

(** Lines 72-125: [setupWebSocket(id)], up to the handlers above. *)
Definition setupWebSocket (id : jsval) : C unit :=
  addLog "Connecting to WebSocket..." "INFO" ;;
  match WebSocket_fault env with
  | Some e => c_throw e
  | None => fun v =>
    (Ok tt, mkView (status v) (logs v) (result v) (requests v)
              (sockets v ++ [id]) (sent v) (closes v))
  end.

(** Lines 127-161: [handleSubmit] with [repoUrl] in the form, given what
    [fetch] gives. *)
Definition handleSubmit (repoUrl : string) (fetched : Fetched) : C unit :=
  setLogs [] ;;
  setResult None ;;
  setStatus (VStr "UPLOADING") ;;
  addLog "Submitting repository URL to upload service..." "INFO" ;;
  c_try_catch
    (fetch_post (JSON_stringify [("repoUrl", VStr repoUrl)]) ;;
     response ← c_lift fetched;
     data ← c_lift response.2;
     (if negb response.1 then
        error ← c_lift (get_prop data "error");
        c_throw (Error_ (ToString
                           (js_or error (VStr "Failed to start deployment"))))
      else mret tt) ;;
     id ← c_lift (get_prop data "id");
     addLog ("Deployment ID received: " +:+ ToString id) "INFO" ;;
     setStatus (VStr "PENDING") ;;
     setupWebSocket id)
    (fun error =>
       let errorMsg := if String.eqb (message error) ""
                       then "Unknown server error" else message error in
       addLog ("Error: " +:+ errorMsg) "ERROR" ;;
       setResult (Some (ResultError (VStr errorMsg))) ;;
       setStatus (VStr "ERROR")).

End WithEnv.


(** ** The render *)







(** ** Reading a message *)



End Client.

(** ** Concrete runs of the client *)

Module ClientScenario.
Import UploadService.

(** The text of a JSON value whose strings need no escaping. *)
Fixpoint text_of (v : jsval) : string :=
  match v with
  | VUndefined | VNull => "null"
  | VBool true => "true"
  | VBool false => "false"
  | VNum z => pretty z
  | VStr s => Scenario.dquote +:+ s +:+ Scenario.dquote
  | VArr elems => "[" +:+ String.concat "," (map text_of elems) +:+ "]"
  | VObj fields =>
    "{" +:+ String.concat ","
              (map (fun kv => Scenario.dquote +:+ kv.1 +:+ Scenario.dquote
                              +:+ ":" +:+ text_of kv.2) fields)
        +:+ "}"
  end.

(** The notifier's message for the failed job [Scenario.record_failed],
    the one for the job once deployed, and a confirmation. *)
Definition update_failed : jsval :=
  VObj [("type", VStr "STATUS_UPDATE"); ("id", VStr "abc123");
        ("status", VStr "ERROR"); ("error", VStr "npm install failed")].

Definition update_deployed : jsval :=
  VObj [("type", VStr "STATUS_UPDATE"); ("id", VStr "abc123");
        ("status", VStr "DEPLOYED"); ("error", VNull)].

(** The register message of the client for job abc12. *)
Definition register_abc12 : jsval :=
  VObj [("action", VStr "register"); ("id", VStr "abc12")].

(** [JSON.parse] on the texts used below. *)
Definition parse (s : string) : Result jsval :=
  if String.eqb s (text_of update_failed) then Ok update_failed
  else if String.eqb s (text_of update_deployed) then Ok update_deployed
  else if String.eqb s (text_of register_abc12) then Ok register_abc12
  else Throw (Error_ "Unexpected token in JSON").

Definition cenv : Client.ClientEnv :=
  Client.mkClientEnv parse text_of (Some "https://sites.example.com") None.

(** The same client without [VITE_SITE_BASE_URL]. *)
Definition cenv_no_base : Client.ClientEnv :=
  Client.mkClientEnv parse text_of None None.

(** A view that waits for job abc123. *)
Definition waiting : Client.View :=
  Client.mkView (VStr "PENDING") [] None [] [VStr "abc123"] [] 0.

(** The WebSocket lambda's surroundings with the client's texts parsed,
    and its world on the table the upload service left. *)
Definition env_socket : Env :=
  mkEnv parse Scenario.clock (fun _ => Ok (mkReceive None))
    (fun _ _ => None) (fun _ => None) (fun _ _ => None) (fun _ _ => None).

Definition w_after_deploy : World :=
  mkWorld (up_table (deploy (UploadScenario.up_env false)
                       UploadScenario.request UploadScenario.w_start).2)
    [] 0.

Definition register_from_client : SocketHandler.RequestEvent :=
  SocketHandler.mkRequest "register" "conn-7" (Some (text_of register_abc12)).

End ClientScenario.

(** * Properties *)

(** ** The model on the two scenarios of the README *)

(** A successful build: the job ends DEPLOYED and the message is deleted
    after the two status writes. *)
Example successful_build_run :
  let w' := (DeployService.startPolling Scenario.env_fine 1
               Scenario.w_pending).2 in
  stored_status (table w') "abc123" = Some (AV_S "DEPLOYED")
  /\ status_writes "abc123" (trace w') = ["IN_PROGRESS"; "DEPLOYED"]
  /\ last (filter (fun e => negb (is_console e)) (trace w'))
     = Some (EvDeleteMessage "receipt-1" true).
Proof. by vm_compute. Qed.

(** A failed build: the job ends in ERROR with the build's message, and
    no delete is issued. *)
Example failed_build_run :
  let w' := (DeployService.startPolling Scenario.env_first_build_fails 1
               Scenario.w_pending).2 in
  table w' !! "abc123" ≫= (.!! "status") = Some (AV_S "ERROR")
  /\ table w' !! "abc123" ≫= (.!! "error") = Some (AV_S "npm install failed")
  /\ existsb is_delete (trace w') = false.
Proof. by vm_compute. Qed.

(** [JSON.stringify] keeps [null] and drops [undefined]. *)
Example stringify_drops_undefined :
  JSON_stringify [("id", VUndefined); ("error", VNull)]
  = VObj [("error", VNull)].
Proof. reflexivity. Qed.

(** ** Running the monad *)

Lemma bind_run {A B} (m : M A) (f : A -> M B) (w : World) :
  (m ≫= f) w =
  match m w with
  | (Ok a, w') => f a w'
  | (Throw e, w') => (Throw e, w')
  end.
Proof. reflexivity. Qed.

Lemma events_of_app {A} (m : M A) (w : World) (evs : list Event) :
  trace (m w).2 = trace w ++ evs -> events_of m w = evs.
Proof.
  intros H. unfold events_of. rewrite H. apply drop_app_length.
Qed.

(** Unfolds the monad operations and evaluates. *)
Ltac run_monad :=
  unfold mbind, M_bind, mret, M_ret, throw, try_catch, attempt, lift_result,
    console_log, console_error, emit, next_tick, get_tick, get_table,
    put_table in *;
  cbn [fst snd table trace tick] in *.

Section UpdateStatus.
Context (env : Env).

Abbreviation updateStatus := (DeployService.updateStatus env).

(** [updateStatus] returns normally in every case: either the store
    applied the update, or its failure was logged and dropped. *)
Lemma updateStatus_run (id : jsval) (st : string) (em : option string)
    (w : World) :
  updateStatus id st em w = (Ok tt, after_update env id st em w).
Proof.
  unfold DeployService.updateStatus, DeployService.Date_now,
    Services.ddb_update, after_update, store_accepts, update_events,
    updated_item.
  run_monad.
  destruct (ddb_fault env (tick w)) as [e|] eqn:Hf; cbn.
  - by rewrite <- !app_assoc.
  - destruct id; cbn; try (by rewrite <- !app_assoc).
    destruct (table w !! s) eqn:Hl; cbn; by rewrite <- !app_assoc.
Qed.

End UpdateStatus.

Lemma check_body_run (body : jsval) (w : World) :
  DeployService.check_body body w =
  if truthy (get_prop_opt body "id") then (Ok tt, w)
  else (Throw (Error_ "Invalid message body or missing deployment ID."), w).
Proof.
  unfold DeployService.check_body, get_prop_opt. run_monad.
  destruct body as [| |b|z|s|l|fields]; cbn; try done.
  - by destruct b.
  - by destruct (z =? 0)%Z.
  - by destruct (s =? "")%string.
  - by destruct (truthy (default VUndefined (assoc "id" fields))).
Qed.

(** One step of symbolic execution: rewrites a status update or the body
    check by its equation, or splits on the innermost undecided test. *)
Ltac exec_step :=
  match goal with
  | |- context [DeployService.updateStatus ?env ?a ?b ?c ?w] =>
    rewrite (updateStatus_run env a b c w); unfold after_update; cbn
  | |- context [DeployService.check_body ?b ?w] =>
    rewrite (check_body_run b w); cbn
  | |- context [match ?x with _ => _ end] =>
    lazymatch x with
    | context [match _ with _ => _ end] => fail
    | _ => destruct x eqn:?; cbn
    end
  end.

(** Tries a tactic at the four pairs of booleans. *)
Ltac both_ways tac :=
  first [tac true true | tac true false | tac false true | tac false false].

(** Closes a goal of the form [exists r w' evs, run = (r, w') /\ trace w' =
    trace w ++ evs /\ _], leaving the last conjunct. *)
Ltac name_run :=
  do 3 eexists; split; [reflexivity|]; split;
  [cbn; rewrite <- ?app_assoc; reflexivity|]; cbn.

Section Consumer.
Context (env : Env).

Abbreviation processMessage := (DeployService.processMessage env).
Abbreviation iteration := (DeployService.iteration env).
Abbreviation startPolling := (DeployService.startPolling env).

Local Opaque DeployService.updateStatus DeployService.check_body.

Lemma processMessage_delivery (message : Message) (w : World) :
  exists r w' evs,
    processMessage message w = (r, w')
    /\ trace w' = trace w ++ evs
    /\ delivery (default "" (ReceiptHandle message)) r evs.
Proof.
  unfold DeployService.processMessage.
  destruct (ReceiptHandle message) as [h|] eqn:Hh; cbn.
  2:{ run_monad. name_run. by apply delivery_dropped. }
  destruct (negb (h =? "")%string) eqn:Hne; cbn.
  2:{ run_monad. name_run. by apply delivery_dropped. }
  unfold DeployService.parse_body, DeployService.build_steps,
    DeployService.on_failure, DeployService.delete_message,
    DeployService.startBuildAndWait, DeployService.sqs_send_delete.
  run_monad.
  repeat exec_step; name_run.
  all: try (by apply delivery_dropped).
  all: repeat match goal with
       | H : (Js.message _ =? "")%string = false |- _ =>
         unfold DeployService.expressionAttributes, truthy_str;
         rewrite H; cbn; apply String.eqb_neq in H
       end.
  all: first
    [ both_ways ltac:(fun b1 b2 =>
        solve [eapply (delivery_build_failed h _ _ b1 _ _ b2); done])
    | both_ways ltac:(fun b1 b2 =>
        solve [eapply (delivery_deployed h _ _ b1 _ b2); done])
    | both_ways ltac:(fun b1 b2 =>
        solve [eapply (delivery_delete_failed h _ _ b1 _ b2); done]) ].
Qed.

(** What one delivery adds to the trace. *)
Lemma processMessage_events (message : Message) (w : World) :
  exists r,
    (processMessage message w).1 = r
    /\ delivery (default "" (ReceiptHandle message)) r
         (events_of (processMessage message) w).
Proof.
  destruct (processMessage_delivery message w) as (r & w' & evs & Hrun & Htr & Hd).
  exists r. rewrite (events_of_app _ _ evs); rewrite Hrun; done.
Qed.

Lemma console_only_guarded (guard : Event -> bool) (evs : list Event) :
  forallb is_console evs = true -> deletes_guarded_by guard evs = true.
Proof.
  induction evs as [|e evs IH]; cbn; [done|].
  intros [He Hr]%andb_prop. destruct (guard e); [done|].
  destruct e; try done; by apply IH.
Qed.

Lemma console_only_none (p : Event -> bool) (evs : list Event) :
  (forall lvl text, p (EvConsole lvl text) = false) ->
  forallb is_console evs = true -> existsb p evs = false.
Proof.
  intros Hp. induction evs as [|e evs IH]; cbn; [done|].
  intros [He Hr]%andb_prop. rewrite (IH Hr).
  destruct e; try done. by rewrite Hp.
Qed.

Lemma console_only_no_writes (k : string) (evs : list Event) :
  forallb is_console evs = true -> status_writes k evs = [].
Proof.
  induction evs as [|e evs IH]; cbn; [done|].
  intros [He Hr]%andb_prop. destruct e; try done; by apply IH.
Qed.

(** C1, as amended: the consumer issues the delete for a message exactly
    when the build succeeded, after [updateStatus(id, DEPLOYED)] has been
    called and has returned, and never when the build failed.  (Whether
    the store recorded the write plays no part: [updateStatus] logs a
    failed write and returns normally.) *)
Theorem C1_delete_follows_deployed_attempt (message : Message) (w : World) :
  let evs := events_of (processMessage message) w in
  deletes_guarded_by (writes_status "DEPLOYED") evs = true
  /\ deletes_guarded_by is_build_ok evs = true
  /\ existsb is_build_failed evs && existsb is_delete evs = false
  /\ existsb is_delete evs = existsb is_build_ok evs.
Proof.
  intros evs. destruct (processMessage_events message w) as (r & _ & Hd).
  fold evs in Hd. clearbody evs.
  destruct Hd as [evs Hc|id t1 ok1 t3 msg ok3 Hm|id t1 ok1 t2 ok2
                 |id t1 ok1 t2 ok2 e].
  - rewrite !console_only_guarded by done.
    rewrite !(console_only_none _ evs) by done. done.
  - by destruct ok1, ok3.
  - by destruct ok1, ok2.
  - by destruct ok1, ok2.
Qed.

(** C2, as amended: within the processing of one delivered message the
    status values recorded for a job form a subsequence of PENDING,
    IN_PROGRESS, DEPLOYED or of PENDING, IN_PROGRESS, ERROR. *)
Theorem C2_one_delivery_is_monotone (message : Message) (w : World)
    (k : string) :
  lifecycle_ok (status_writes k (events_of (processMessage message) w)) = true.
Proof.
  destruct (processMessage_events message w) as (r & _ & Hd).
  destruct Hd as [evs Hc|id t1 ok1 t3 msg ok3 Hm|id t1 ok1 t2 ok2
                 |id t1 ok1 t2 ok2 e].
  - by rewrite console_only_no_writes.
  - destruct ok1, ok3, id; cbn; try done; by destruct (s =? k)%string.
  - destruct ok1, ok2, id; cbn; try done; by destruct (s =? k)%string.
  - destruct ok1, ok2, id; cbn; try done; by destruct (s =? k)%string.
Qed.

(** A message without a job id causes no store call and no delete. *)
Lemma processMessage_malformed (message : Message) (w : World) :
  malformed env message = true ->
  exists evs,
    processMessage message w
      = (Ok tt, mkWorld (table w) (trace w ++ evs) (tick w))
    /\ forallb is_console evs = true.
Proof.
  intros H. unfold malformed, body_absent, body_unparsable, body_lacks_id in H.
  unfold DeployService.processMessage, DeployService.parse_body,
    DeployService.build_steps, DeployService.on_failure.
  run_monad.
  destruct (ReceiptHandle message) as [h|]; cbn; [destruct (h =? "")%string|];
    cbn; try (by eexists [_]).
  destruct (Body message) as [raw|]; cbn in *.
  2:{ eexists [_; _]. by rewrite <- !app_assoc. }
  destruct (raw =? "")%string; cbn in *.
  { eexists [_; _]. by rewrite <- !app_assoc. }
  destruct (JSON_parse env raw) as [body|e]; cbn in *.
  2:{ eexists [_; _; _]. by rewrite <- !app_assoc. }
  rewrite check_body_run.
  destruct (truthy (get_prop_opt body "id")); cbn in *; [done|].
  eexists [_; _; _]. by rewrite <- !app_assoc.
Qed.

(** C3: a received message whose body is absent, unparsable or without a
    job id is processed without any store call and without a delete, both
    as one message of a batch and as the message of one polling turn. *)
Theorem C3_malformed_message_left_alone (message : Message) (w : World) :
  malformed env message = true ->
  (exists w',
     processMessage message w = (Ok tt, w')
     /\ table w' = table w
     /\ forallb is_console (events_of (processMessage message) w) = true)
  /\ (sqs_receive env (tick w) = Ok (mkReceive (Some [message])) ->
      exists w',
        iteration w = (Ok tt, w')
        /\ table w' = table w
        /\ existsb is_update (events_of iteration w) = false
        /\ existsb is_delete (events_of iteration w) = false).
Proof.
  intros H. split.
  - destruct (processMessage_malformed message w H) as (evs & Hrun & Hc).
    eexists. split; [exact Hrun|]. split; [done|].
    rewrite (events_of_app _ _ evs); [done | by rewrite Hrun].
  - intros Hrecv.
    destruct (processMessage_malformed message
                (mkWorld (table w) (trace w ++ [EvReceive true]) (S (tick w)))
                H) as (evs & Hrun & Hc).
    cbn in Hrun.
    assert (iteration w =
            (Ok tt, mkWorld (table w) (trace w ++ EvReceive true :: evs)
                      (S (tick w)))) as Hit.
    { unfold DeployService.iteration, DeployService.poll_once,
        DeployService.sqs_send_receive.
      run_monad. rewrite Hrecv. cbn -[DeployService.processMessage].
      run_monad. rewrite Hrun. by rewrite <- app_assoc. }
    eexists. split; [exact Hit|]. split; [done|].
    rewrite (events_of_app _ _ (EvReceive true :: evs)) by (by rewrite Hit).
    cbn. rewrite !console_only_none; done.
Qed.

(** Every turn of the loop completes normally. *)
Lemma iteration_completes (w : World) :
  exists w1, iteration w = (Ok tt, w1).
Proof.
  unfold DeployService.iteration, DeployService.backoff. run_monad.
  destruct (DeployService.poll_once env w) as [[[]|e] w']; eauto.
Qed.



End Consumer.

(** ** Invariants of the polling loop *)

(** Any reflexive and transitive relation on worlds that is kept by the
    events other than store updates, by the call counter and by the
    consumer's three status writes is kept by the whole loop. *)
Section Preservation.
Context (env : Env) (R : World -> World -> Prop).
Hypothesis R_refl : forall w, R w w.
Hypothesis R_trans : forall w1 w2 w3, R w1 w2 -> R w2 w3 -> R w1 w3.
Hypothesis R_emit : forall w e,
  is_update e = false -> R w (mkWorld (table w) (trace w ++ [e]) (tick w)).
Hypothesis R_tick : forall w,
  R w (mkWorld (table w) (trace w) (S (tick w))).
Hypothesis R_update : forall id st em w,
  consumer_call st em -> R w (after_update env id st em w).

Lemma preserves_ret {A} (a : A) : preserves R (mret a).
Proof. intros w r w' [= <- <-]. apply R_refl. Qed.

Lemma preserves_throw {A} (e : JsError) : preserves R (@throw A e).
Proof. intros w r w' [= <- <-]. apply R_refl. Qed.

Lemma preserves_lift {A} (x : Result A) : preserves R (lift_result x).
Proof. intros w r w' [= <- <-]. apply R_refl. Qed.

Lemma preserves_bind {A B} (m : M A) (f : A -> M B) :
  preserves R m -> (forall a, preserves R (f a)) -> preserves R (m ≫= f).
Proof.
  intros Hm Hf w r w'. rewrite bind_run.
  destruct (m w) as [[a|e] w1] eqn:E.
  - intros H. eapply R_trans; [by eapply Hm | by eapply Hf].
  - intros [= <- <-]. by eapply Hm.
Qed.

Lemma preserves_try_catch {A} (m : M A) (h : JsError -> M A) :
  preserves R m -> (forall e, preserves R (h e)) -> preserves R (try_catch m h).
Proof.
  intros Hm Hh w r w'. unfold try_catch.
  destruct (m w) as [[a|e] w1] eqn:E.
  - intros [= <- <-]. by eapply Hm.
  - intros H. eapply R_trans; [by eapply Hm | by eapply Hh].
Qed.

Lemma preserves_attempt {A} (m : M A) :
  preserves R m -> preserves R (attempt m).
Proof.
  intros Hm w r w'. unfold attempt.
  destruct (m w) as [r1 w1] eqn:E. intros [= <- <-]. by eapply Hm.
Qed.

Lemma preserves_emit (e : Event) : is_update e = false -> preserves R (emit e).
Proof. intros He w r w' [= <- <-]. by apply R_emit. Qed.

Lemma preserves_console_log (text : string) : preserves R (console_log text).
Proof. by apply preserves_emit. Qed.

Lemma preserves_console_error (text : string) :
  preserves R (console_error text).
Proof. by apply preserves_emit. Qed.

Lemma preserves_next_tick : preserves R next_tick.
Proof. intros w r w' [= <- <-]. apply R_tick. Qed.

Lemma preserves_for_of {A} (xs : list A) (f : A -> M unit) :
  (forall x, In x xs -> preserves R (f x)) -> preserves R (for_of xs f).
Proof.
  induction xs as [|x xs IH]; intros Hf; cbn.
  - apply preserves_ret.
  - apply preserves_bind; [apply Hf; by left | intros _; apply IH].
    intros y Hy. apply Hf. by right.
Qed.

Lemma preserves_updateStatus id st em :
  consumer_call st em -> preserves R (DeployService.updateStatus env id st em).
Proof.
  intros Hc w r w'. rewrite updateStatus_run. intros [= <- <-].
  by apply R_update.
Qed.

Local Opaque DeployService.updateStatus.

(** Applies the rules above along the structure of a program. *)
Ltac preserve :=
  repeat first
    [ apply preserves_ret
    | apply preserves_throw
    | apply preserves_lift
    | apply preserves_console_log
    | apply preserves_console_error
    | apply preserves_next_tick
    | apply preserves_emit; reflexivity
    | apply preserves_attempt
    | apply preserves_bind; [|intros ?]
    | apply preserves_try_catch; [|intros ?]
    | match goal with
      | |- preserves _ (match ?x with _ => _ end) => destruct x
      end ].

Lemma preserves_build_steps body :
  preserves R (DeployService.build_steps env body).
Proof.
  unfold DeployService.build_steps, DeployService.check_body,
    DeployService.startBuildAndWait.
  preserve; apply preserves_updateStatus; right; done.
Qed.

Local Opaque DeployService.build_steps.

Lemma preserves_on_failure body err :
  preserves R (DeployService.on_failure env body err).
Proof.
  unfold DeployService.on_failure. preserve.
  apply preserves_updateStatus. left. split; [done|]. cbn.
  destruct (Js.message err =? "")%string eqn:E; [done|]. by rewrite E.
Qed.

Local Opaque DeployService.on_failure.

Lemma preserves_processMessage message :
  preserves R (DeployService.processMessage env message).
Proof.
  unfold DeployService.processMessage, DeployService.parse_body,
    DeployService.delete_message, DeployService.sqs_send_delete.
  preserve;
    first [apply preserves_build_steps | apply preserves_on_failure].
Qed.

Local Opaque DeployService.processMessage.

Lemma preserves_iteration : preserves R (DeployService.iteration env).
Proof.
  unfold DeployService.iteration, DeployService.poll_once,
    DeployService.backoff, DeployService.sqs_send_receive.
  preserve;
    first [ apply preserves_processMessage
          | apply preserves_for_of; intros; apply preserves_processMessage ].
Qed.

Lemma preserves_startPolling n : preserves R (DeployService.startPolling env n).
Proof.
  induction n as [|n IH]; cbn.
  - apply preserves_ret.
  - apply preserves_bind; [apply preserves_iteration | intros _; apply IH].
Qed.

End Preservation.

(** ** The error attribute *)

Lemma has_error_insert (t : Table) (k0 k : string) (item : Item) :
  has_error (<[k0 := item]> t) k =
  if decide (k = k0) then bool_decide (is_Some (item !! "error"))
  else has_error t k.
Proof.
  unfold has_error. destruct (decide (k = k0)) as [->|Hne].
  - by rewrite lookup_insert_eq.
  - by rewrite lookup_insert_ne.
Qed.

Lemma is_ERROR_insert (t : Table) (k0 k : string) (item : Item) :
  is_ERROR (<[k0 := item]> t) k =
  if decide (k = k0) then bool_decide (item !! "status" = Some (AV_S "ERROR"))
  else is_ERROR t k.
Proof.
  unfold is_ERROR, stored_status. destruct (decide (k = k0)) as [->|Hne].
  - by rewrite lookup_insert_eq.
  - by rewrite lookup_insert_ne.
Qed.

(** A write with an error message records the error. *)
Lemma updated_item_with_error (st t : string) (msg : option string)
    (k : string) (tb : Table) :
  truthy_str msg = true ->
  is_Some (updated_item (DeployService.expressionAttributes st t msg) k tb
             !! "error").
Proof.
  intros H. unfold updated_item, DeployService.expressionAttributes.
  rewrite H. cbn. rewrite lookup_insert_eq. by eexists.
Qed.

(** A write without an error message leaves the error as it was and sets
    the status. *)
Lemma updated_item_without_error (st t : string) (k : string) (tb : Table) :
  let item := updated_item (DeployService.expressionAttributes st t None) k tb in
  bool_decide (is_Some (item !! "error")) = has_error tb k
  /\ item !! "status" = Some (AV_S st).
Proof.
  unfold updated_item, DeployService.expressionAttributes, has_error. cbn.
  split.
  - rewrite !lookup_insert_ne by done. by destruct (tb !! k).
  - rewrite lookup_insert_ne by done. by rewrite lookup_insert_eq.
Qed.

Lemma store_accepts_key (env : Env) (id : jsval) (w : World) (k : string) :
  store_accepts env id w = Some k -> id = VStr k.
Proof.
  unfold store_accepts. destruct (ddb_fault env (tick w)); [done|].
  destruct id; try done. by intros [= ->].
Qed.

Lemma error_kept_refl (w : World) : error_kept w w.
Proof.
  exists []. split; [by rewrite app_nil_r|]. intros k. repeat split; auto.
Qed.

Lemma error_kept_trans (w1 w2 w3 : World) :
  error_kept w1 w2 -> error_kept w2 w3 -> error_kept w1 w3.
Proof.
  intros (evs1 & Ht1 & H1) (evs2 & Ht2 & H2).
  exists (evs1 ++ evs2). split; [by rewrite Ht2, Ht1, app_assoc|].
  intros k. destruct (H1 k) as (Ha1 & Hb1 & Hc1).
  destruct (H2 k) as (Ha2 & Hb2 & Hc2).
  rewrite existsb_app. repeat split.
  - auto.
  - intros H3. destruct (Hb2 H3) as [H|H].
    + destruct (Hb1 H) as [H'|H']; [by left|]. right. by rewrite H'.
    + right. rewrite H. by destruct (existsb _ evs1).
  - auto.
Qed.

Lemma error_kept_same_table (w w' : World) (evs : list Event) :
  table w' = table w -> trace w' = trace w ++ evs -> error_kept w w'.
Proof.
  intros Ht Htr. exists evs. split; [done|]. rewrite Ht.
  intros k. repeat split; auto.
Qed.

(** The core of the invariant: one status write of the consumer. *)
Lemma error_kept_update (env : Env) (id : jsval) (st : string)
    (em : option string) (w : World) :
  consumer_call st em -> error_kept w (after_update env id st em w).
Proof.
  intros Hc. unfold after_update.
  destruct (store_accepts env id w) as [k0|] eqn:Hs.
  2:{ by eapply error_kept_same_table. }
  apply store_accepts_key in Hs as ->.
  eexists. split; [done|]. cbn [table]. intros k.
  rewrite has_error_insert, is_ERROR_insert.
  destruct (decide (k = k0)) as [->|Hne]; [|by auto].
  destruct Hc as [[-> Hm]|[Hst ->]].
  - pose proof (updated_item_with_error "ERROR" (now env (tick w)) em k0
                  (table w) Hm) as He.
    rewrite (bool_decide_eq_true_2 _ He).
    repeat split; auto. intros _. right. cbn.
    rewrite String.eqb_refl. unfold DeployService.expressionAttributes.
    by rewrite Hm.
  - destruct (updated_item_without_error st (now env (tick w)) k0 (table w))
      as [-> ->].
    repeat split; auto.
    intros _ H. apply bool_decide_eq_true in H. congruence.
Qed.

(** C5, as amended: over any number of turns of the consumer, a job whose
    status is ERROR has its error attribute set (if that held at the
    start); an error attribute appears only through a recorded ERROR write;
    and no write removes it, so a job that was in ERROR keeps the error
    when a later write moves it to IN_PROGRESS or DEPLOYED. *)
Theorem C5_error_set_with_ERROR_never_cleared (env : Env) (n : nat)
    (w : World) (k : string) :
  (is_ERROR (table w) k = true -> has_error (table w) k = true) ->
  let w' := (DeployService.startPolling env n w).2 in
  let evs := events_of (DeployService.startPolling env n) w in
  (is_ERROR (table w') k = true -> has_error (table w') k = true)
  /\ (has_error (table w') k = true ->
      has_error (table w) k = true \/ existsb (recorded_ERROR k) evs = true)
  /\ (has_error (table w) k = true -> has_error (table w') k = true).
Proof.
  intros Hinit w' evs.
  assert (error_kept w w') as (evs0 & Htr & H).
  { assert (forall w0 e, is_update e = false ->
              error_kept w0 (mkWorld (table w0) (trace w0 ++ [e]) (tick w0)))
      as Hemit by (intros w0 e _; by eapply error_kept_same_table).
    assert (forall w0,
              error_kept w0 (mkWorld (table w0) (trace w0) (S (tick w0))))
      as Htick.
    { intros w0. eapply (error_kept_same_table _ _ []); [done|].
      by rewrite app_nil_r. }
    destruct (DeployService.startPolling env n w) as [r w1] eqn:E.
    exact (preserves_startPolling env error_kept error_kept_refl
             error_kept_trans Hemit Htick (error_kept_update env) n w r w1 E). }
  assert (evs = evs0) as -> by (by apply events_of_app).
  destruct (H k) as (Ha & Hb & Hc). auto.
Qed.

(** ** The change notifier *)

Section Notifier.
Context (env : Env).

Abbreviation process_record := (StreamHandler.process_record env).

Lemma stream_postToConnection_run (cid : jsval) (data : list (string * jsval))
    (w : World) :
  StreamHandler.postToConnection env cid data w =
  (Ok tt, mkWorld (table w)
            (trace w ++ post_events cid (JSON_stringify data)
                          (gateway_fault env (tick w) cid))
            (S (tick w))).
Proof.
  unfold StreamHandler.postToConnection, Services.apigw_send, post_events.
  run_monad.
  destruct (gateway_fault env (tick w) cid) as [e|]; cbn; [|done].
  destruct (bool_decide (Js.statusCode e = Some 410%Z)); cbn; [done|].
  by rewrite <- app_assoc.
Qed.

Local Opaque StreamHandler.postToConnection.

(** What the handler does with one record. *)
Lemma process_record_run (record : StreamHandler.StreamRecord) (w : World) :
  (listening record /\
   exists img,
     StreamHandler.NewImage record = Some img /\
     let d := unmarshall img in
     let cid := field d "connectionId" in
     process_record record w =
     (Ok tt, mkWorld (table w)
               (trace w ++ EvConsole Info "Change detected, sending status"
                  :: post_events cid
                       (JSON_stringify (StreamHandler.status_update d))
                       (gateway_fault env (tick w) cid))
               (S (tick w))))
  \/ (~ listening record /\
      exists evs,
        process_record record w
          = (Ok tt, mkWorld (table w) (trace w ++ evs) (tick w))
        /\ existsb is_post evs = false
        /\ existsb is_error_log evs = false).
Proof.
  unfold StreamHandler.process_record, listening.
  destruct (StreamHandler.eventName record =? "MODIFY")%string eqn:En.
  2:{ right. apply String.eqb_neq in En. split; [by intros [H _]|].
      exists []. destruct w. cbn. by rewrite app_nil_r. }
  apply String.eqb_eq in En.
  destruct (StreamHandler.NewImage record) as [img|] eqn:Hi.
  2:{ right. split; [by intros (_ & img & H & _)|].
      exists []. destruct w. cbn. run_monad. by rewrite app_nil_r. }
  destruct (truthy (field (unmarshall img) "connectionId")) eqn:Hc.
  - left. split; [by eauto|]. exists img. split; [done|].
    run_monad. rewrite stream_postToConnection_run. cbn.
    by rewrite <- app_assoc.
  - right. split.
    + intros (_ & img' & [= <-] & H). congruence.
    + run_monad. by eexists [_].
Qed.

(** A push is attempted exactly for the listening records: a MODIFY that
    carries a new image whose connectionId is truthy; for every other
    record no push is attempted and no error is logged. *)
Lemma push_iff_listening (record : StreamHandler.StreamRecord) (w : World) :
  let evs := events_of (process_record record) w in
  (existsb is_post evs = true <-> listening record)
  /\ existsb is_post evs || negb (existsb is_error_log evs) = true.
Proof.
  intros evs.
  destruct (process_record_run record w)
    as [(Hl & img & Hi & Hrun)|(Hn & evs0 & Hrun & Hp & He)].
  - assert (existsb is_post evs = true) as ->; [|by split].
    subst evs. erewrite events_of_app; [|by rewrite Hrun].
    cbn. unfold post_events. by destruct (gateway_fault _ _ _).
  - assert (evs = evs0) as -> by (apply events_of_app; by rewrite Hrun).
    rewrite Hp, He. by split.
Qed.

(** On a record of the job table a connectionId that is present is
    truthy. *)
Lemma listening_iff_has_connection (record : StreamHandler.StreamRecord) :
  connection_as_registered record = true ->
  listening record
  <-> StreamHandler.eventName record = "MODIFY" /\ has_connection record.
Proof.
  unfold connection_as_registered, listening, has_connection, field,
    unmarshall.
  intros Hc. split.
  - intros (Hm & img & Hi & Ht). split; [done|]. exists img.
    rewrite lookup_fmap in Ht.
    destruct (img !! "connectionId") as [a|]; [by eauto|done].
  - intros (Hm & img & a & Hi & Ha). split; [done|]. exists img.
    split; [done|]. rewrite Hi, Ha in Hc. rewrite lookup_fmap, Ha.
    by destruct a.
Qed.

(** C6: for a change-feed record of the job table (an image that
    [unmarshall] turns into plain values, with a connectionId as the
    registration writes it) a push is attempted exactly when the record
    is a MODIFY and the job's connectionId attribute is present; an
    INSERT and a record of a job with no registered connection cause no
    push attempt and no error log. *)
Theorem C6_push_iff_modify_and_connection_present
    (record : StreamHandler.StreamRecord) (w : World) :
  safe_record record = true ->
  connection_as_registered record = true ->
  let evs := events_of (process_record record) w in
  (existsb is_post evs = true
   <-> StreamHandler.eventName record = "MODIFY" /\ has_connection record)
  /\ (~ (StreamHandler.eventName record = "MODIFY" /\ has_connection record)
      -> existsb is_post evs = false /\ existsb is_error_log evs = false).
Proof.
  intros _ Hc evs.
  destruct (push_iff_listening record w) as [Hiff Hlog]. fold evs in Hiff, Hlog.
  rewrite (listening_iff_has_connection record Hc) in Hiff.
  split; [done|]. intros Hn.
  destruct (existsb is_post evs) eqn:Hp.
  - destruct Hn. by apply Hiff.
  - split; [done|]. cbn in Hlog. by apply negb_true_iff in Hlog.
Qed.

(** A failed push is contained.  [postToConnection] returns normally after
    its single attempt; it logs the failure unless the thrown object has
    a [statusCode] property equal to 410.  In both cases the table is
    unchanged, the record's processing completes normally and the handler
    goes on with the remaining records of the batch. *)
Lemma push_failures_are_contained (cid : jsval)
    (data : list (string * jsval)) (w : World) (e : JsError) :
  gateway_fault env (tick w) cid = Some e ->
  (Js.statusCode e = Some 410%Z ->
   StreamHandler.postToConnection env cid data w =
   (Ok tt, mkWorld (table w)
             (trace w ++ [EvPostToConnection cid (JSON_stringify data) false])
             (S (tick w))))
  /\ (Js.statusCode e <> Some 410%Z ->
      StreamHandler.postToConnection env cid data w =
      (Ok tt, mkWorld (table w)
                (trace w ++ [EvPostToConnection cid (JSON_stringify data) false;
                             EvConsole Error "Error posting to connection:"])
                (S (tick w))))
  /\ (forall record rest,
       exists w1,
         process_record record w = (Ok tt, w1)
         /\ table w1 = table w
         /\ for_of (record :: rest) process_record w
            = for_of rest process_record w1).
Proof.
  intros Hf. repeat split.
  - intros H. rewrite stream_postToConnection_run, Hf. cbn.
    by rewrite bool_decide_eq_true_2.
  - intros H. rewrite stream_postToConnection_run, Hf. cbn.
    by rewrite bool_decide_eq_false_2.
  - intros record rest.
    destruct (process_record_run record w)
      as [(_ & img & _ & Hrun)|(_ & evs & Hrun & _)];
      cbn in Hrun; eexists; (split; [exact Hrun|]); (split; [done|]);
      cbn; by rewrite bind_run, Hrun.
Qed.

(** An exception of the v3 client is logged, whatever its HTTP status: it
    has no [statusCode] property, so the test of line 27 lets every one of
    them through to [console.error]. *)
Lemma service_exception_is_logged (cid : jsval)
    (data : list (string * jsval)) (w : World) (x : ServiceException) :
  gateway_fault env (tick w) cid = Some (thrown x) ->
  StreamHandler.postToConnection env cid data w =
  (Ok tt, mkWorld (table w)
            (trace w ++ [EvPostToConnection cid (JSON_stringify data) false;
                         EvConsole Error "Error posting to connection:"])
            (S (tick w))).
Proof.
  intros Hf. by rewrite stream_postToConnection_run, Hf.
Qed.

Lemma pushes_from_refl event (w : World) : pushes_from event w w.
Proof. exists []. split; [by rewrite app_nil_r | constructor]. Qed.

Lemma pushes_from_trans event (w1 w2 w3 : World) :
  pushes_from event w1 w2 -> pushes_from event w2 w3 -> pushes_from event w1 w3.
Proof.
  intros (evs1 & Ht1 & H1) (evs2 & Ht2 & H2). exists (evs1 ++ evs2).
  split; [by rewrite Ht2, Ht1, app_assoc | by apply Forall_app].
Qed.

(** The [error] property of a status update is never left out. *)
Lemma status_update_error (img : Item) :
  exists fields,
    JSON_stringify (StreamHandler.status_update (unmarshall img)) = VObj fields
    /\ assoc "type" fields = Some (VStr "STATUS_UPDATE")
    /\ assoc "error" fields = Some (error_to_send img).
Proof.
  eexists. split; [reflexivity|].
  assert (js_or (field (unmarshall img) "error") VNull = error_to_send img)
    as Herr.
  { unfold js_or, field, unmarshall, error_to_send. rewrite lookup_fmap.
    by destruct (img !! "error"). }
  assert (is_undefined (error_to_send img) = false) as Hdef.
  { unfold error_to_send. destruct (img !! "error") as [a|]; [|done].
    destruct a as [s|z|b|]; cbn; try done.
    - by destruct (s =? "")%string.
    - by destruct (z =? 0)%Z.
    - by destruct b. }
  unfold StreamHandler.status_update. rewrite Herr.
  rewrite !filter_cons. cbn [snd negb is_undefined]. rewrite Hdef. cbn.
  destruct (is_undefined (field (unmarshall img) "id"));
    destruct (is_undefined (field (unmarshall img) "status")); cbn; done.
Qed.

Lemma process_record_pushes event record :
  In record event -> preserves (pushes_from event) (process_record record).
Proof.
  intros Hin w r w' Hrun'.
  destruct (process_record_run record w)
    as [(_ & img & Hi & Hrun)|(_ & evs & Hrun & Hp & _)];
    cbn in Hrun; rewrite Hrun in Hrun'; injection Hrun' as <- <-.
  - eexists. split; [done|]. constructor; [done|].
    destruct (status_update_error img) as (fields & -> & Hty & Her).
    unfold post_events.
    assert (forall ok,
              exists record0, In record0 event /\
                status_push_of record0
                  (EvPostToConnection (field (unmarshall img) "connectionId")
                     (VObj fields) ok)) as Hpush.
    { intros ok. exists record. split; [done|].
      exists img, (field (unmarshall img) "connectionId"), fields, ok.
      done. }
    destruct (gateway_fault _ _ _) as [e|].
    + constructor; [by intros _|].
      destruct (bool_decide _); repeat constructor; done.
    + repeat constructor. by intros _.
  - exists evs. split; [done|]. apply Forall_forall. intros e He Hpost.
    apply list_elem_of_In in He.
    assert (existsb is_post evs = true) as Hex
      by (apply existsb_exists; eauto).
    congruence.
Qed.

(** C10: every push the notifier makes carries an [error] property; its
    value is the record's error attribute when that is set and truthy,
    and [null] otherwise. *)
Theorem C10_status_update_always_has_error
    (event : list StreamHandler.StreamRecord) (w : World) (e : Event) :
  In e (events_of (StreamHandler.handler env event) w) ->
  is_post e = true ->
  exists record img cid fields ok,
    In record event
    /\ StreamHandler.NewImage record = Some img
    /\ e = EvPostToConnection cid (VObj fields) ok
    /\ assoc "type" fields = Some (VStr "STATUS_UPDATE")
    /\ assoc "error" fields = Some (error_to_send img).
Proof.
  intros Hin Hpost.
  assert (pushes_from event w (StreamHandler.handler env event w).2)
    as (evs & Htr & Hall).
  { destruct (StreamHandler.handler env event w) as [r w'] eqn:E.
    revert E. apply (preserves_bind (pushes_from event)).
    - apply pushes_from_trans.
    - intros w0 r0 w0' H. unfold console_log, emit in H.
      injection H as <- <-.
      exists [EvConsole Info "DynamoDB Stream event received:"].
      split; [done|]. by repeat constructor.
    - intros _. apply preserves_for_of.
      + apply pushes_from_refl.
      + apply pushes_from_trans.
      + intros record Hr. by apply process_record_pushes. }
  rewrite (events_of_app _ _ evs Htr) in Hin.
  rewrite Forall_forall in Hall. apply list_elem_of_In in Hin.
  destruct (Hall e Hin Hpost) as (record & Hr & img & cid & fields & ok & H).
  exists record, img, cid, fields, ok. tauto.
Qed.

End Notifier.

(** ** The connection registry *)

Section Registry.
Context (env : Env).

Abbreviation handler := (SocketHandler.handler env).

Lemma socket_postToConnection_run (cid : jsval) (data : list (string * jsval))
    (w : World) :
  SocketHandler.postToConnection env cid data w =
  (Ok tt, mkWorld (table w)
            (trace w ++ post_events cid (JSON_stringify data)
                          (gateway_fault env (tick w) cid))
            (S (tick w))).
Proof.
  unfold SocketHandler.postToConnection, Services.apigw_send, post_events.
  run_monad.
  destruct (gateway_fault env (tick w) cid) as [e|]; cbn; [|done].
  destruct (bool_decide (Js.statusCode e = Some 410%Z)); cbn; [done|].
  by rewrite <- app_assoc.
Qed.

Local Opaque SocketHandler.postToConnection.

(** A register request routes to [register]. *)
Lemma handler_register (event : SocketHandler.RequestEvent) (w : World) :
  SocketHandler.routeKey event = "register" ->
  handler event w =
  SocketHandler.register env event
    (mkWorld (table w) (trace w ++ [EvConsole Info "Received route:"])
       (tick w)).
Proof. intros H. unfold SocketHandler.handler. by rewrite H. Qed.

(** A request whose [id] is missing or falsy is answered with 400 before
    any call to the store or the gateway. *)
Lemma register_falsy_id (event : SocketHandler.RequestEvent) (w : World)
    (b v : jsval) :
  SocketHandler.routeKey event = "register" ->
  SocketHandler.parse_event_body env (SocketHandler.body event) = Ok b ->
  get_prop b "id" = Ok v ->
  truthy v = false ->
  handler event w =
  (Ok (SocketHandler.mkResponse 400 "Missing 'id' in register message."),
   mkWorld (table w) (trace w ++ [EvConsole Info "Received route:"]) (tick w)).
Proof.
  intros Hr Hp Hid Hv. rewrite handler_register by done.
  unfold SocketHandler.register. run_monad. rewrite Hp. cbn.
  rewrite Hid. cbn. by rewrite Hv.
Qed.

(** C9: a register request whose parsed body is an object without an
    [id] property is answered with status 400; the handler makes no call
    to the store and no push. *)
Theorem C9_register_without_id_is_rejected
    (event : SocketHandler.RequestEvent) (w : World)
    (fields : list (string * jsval)) :
  SocketHandler.routeKey event = "register" ->
  SocketHandler.parse_event_body env (SocketHandler.body event)
    = Ok (VObj fields) ->
  assoc "id" fields = None ->
  exists w',
    handler event w =
      (Ok (SocketHandler.mkResponse 400 "Missing 'id' in register message."),
       w')
    /\ table w' = table w
    /\ existsb is_update (events_of (handler event) w) = false
    /\ existsb is_post (events_of (handler event) w) = false.
Proof.
  intros Hr Hp Hid.
  assert (get_prop (VObj fields) "id" = Ok VUndefined) as Hg
    by (cbn; by rewrite Hid).
  pose proof (register_falsy_id event w _ _ Hr Hp Hg eq_refl) as Hrun.
  eexists. split; [exact Hrun|]. split; [done|].
  rewrite (events_of_app _ _ [EvConsole Info "Received route:"])
    by (by rewrite Hrun).
  done.
Qed.

(** C4: registering a connection for a job id.  The set of job records is
    never changed.  When no record has that id the request fails: the
    caller gets status 500, nothing is written and nothing is pushed.
    When the record exists and the store takes the call, the record gets
    [connectionId] set to the caller's connection, every other record is
    as before, and the caller gets status 200. *)
Theorem C4_register_needs_existing_job
    (event : SocketHandler.RequestEvent) (w : World) (b : jsval)
    (jobId : string) :
  SocketHandler.routeKey event = "register" ->
  SocketHandler.parse_event_body env (SocketHandler.body event) = Ok b ->
  get_prop b "id" = Ok (VStr jobId) ->
  jobId <> "" ->
  let run := handler event w in
  dom (table run.2) = dom (table w)
  /\ (table w !! jobId = None ->
      run.1 = Ok (SocketHandler.mkResponse 500 "Registration failed.")
      /\ table run.2 = table w
      /\ existsb is_error_log (events_of (handler event) w) = true
      /\ existsb is_post (events_of (handler event) w) = false)
  /\ (forall item,
       table w !! jobId = Some item ->
       ddb_fault env (tick w) = None ->
       run.1 = Ok (SocketHandler.mkResponse 200 "Registered.")
       /\ table run.2 =
          <[jobId := <["connectionId" :=
                         AV_S (SocketHandler.connectionId event)]> item]>
            (table w)).
Proof.
  intros Hr Hp Hid Hne run. subst run.
  assert ((jobId =? "")%string = false) as Ht by (by apply String.eqb_neq).
  unfold events_of. rewrite handler_register by done.
  unfold SocketHandler.register, Services.ddb_update.
  run_monad. rewrite Hp. cbn. rewrite Hid. cbn. rewrite Ht. cbn.
  destruct (ddb_fault env (tick w)) as [e|] eqn:Hf; cbn.
  { split; [done|]. split; [|done]. intros _. repeat split.
    - rewrite <- !app_assoc, drop_app_length. done.
    - rewrite <- !app_assoc, drop_app_length. done. }
  destruct (table w !! jobId) as [item|] eqn:Hl; cbn.
  - rewrite socket_postToConnection_run. cbn.
    split; [|split; [done|]].
    + apply dom_insert_lookup_L. by eexists.
    + intros item' [= <-] _. done.
  - split; [done|]. split; [|done]. intros _. repeat split.
    + rewrite <- !app_assoc, drop_app_length. done.
    + rewrite <- !app_assoc, drop_app_length. done.
Qed.

End Registry.

(** ** Runs that refute the claims as first stated *)

(** C1 as stated fails: when the store rejects the DEPLOYED write the
    message is deleted all the same, and the job is left IN_PROGRESS. *)
Lemma C1_deleted_though_deployed_write_lost :
  let run := DeployService.processMessage Scenario.env_deployed_write_lost
               Scenario.message_abc123 in
  let evs := events_of run Scenario.w_pending in
  deletes_guarded_by
    (fun e => writes_status "DEPLOYED" e && recorded e) evs = false
  /\ In (EvDeleteMessage "receipt-1" true) evs
  /\ existsb (fun e => writes_status "DEPLOYED" e && recorded e) evs = false
  /\ stored_status (table (run Scenario.w_pending).2) "abc123"
     = Some (AV_S "IN_PROGRESS").
Proof. vm_compute. intuition. Qed.

(** C2 as stated fails: a message whose build failed is delivered again,
    and the retry writes IN_PROGRESS over ERROR. *)
Lemma C2_redelivery_moves_backward :
  let evs := events_of
               (DeployService.startPolling Scenario.env_first_build_fails 2)
               Scenario.w_pending in
  status_writes "abc123" evs
    = ["IN_PROGRESS"; "ERROR"; "IN_PROGRESS"; "DEPLOYED"]
  /\ lifecycle_ok (status_writes "abc123" evs) = false.
Proof. vm_compute. done. Qed.

(** C5 as stated fails: after a failed build the job is in ERROR with its
    error set; the retry's IN_PROGRESS write keeps the error, and so does
    the DEPLOYED write that ends the retry. *)
Lemma C5_error_survives_retry :
  let env := Scenario.env_first_build_fails in
  let w1 := (DeployService.startPolling env 1 Scenario.w_pending).2 in
  let w2 := (DeployService.updateStatus env (VStr "abc123") "IN_PROGRESS"
               None w1).2 in
  let w3 := (DeployService.startPolling env 2 Scenario.w_pending).2 in
  (is_ERROR (table w1) "abc123" = true /\ has_error (table w1) "abc123" = true)
  /\ (stored_status (table w2) "abc123" = Some (AV_S "IN_PROGRESS")
      /\ has_error (table w2) "abc123" = true)
  /\ (stored_status (table w3) "abc123" = Some (AV_S "DEPLOYED")
      /\ has_error (table w3) "abc123" = true
      /\ is_ERROR (table w3) "abc123" = false).
Proof. vm_compute. repeat split. Qed.

(** C7 fails on the code: a push to a connection that is gone is logged.
    The gateway answers the push for the failed job with its
    GoneException, whose HTTP status is 410.  The handler makes the one
    attempt, completes, and logs "Error posting to connection:": the
    exception has no [statusCode] property for line 27 to compare with
    410. *)
Theorem C7_gone_connection_is_logged :
  httpStatusCode Scenario.gone_exception = 410%Z
  /\ StreamHandler.handler (Scenario.env_gateway_fails Scenario.gone)
       [Scenario.record_failed] Scenario.w_pending
     = (Ok tt,
        mkWorld (table Scenario.w_pending)
          [EvConsole Info "DynamoDB Stream event received:";
           EvConsole Info "Change detected, sending status";
           EvPostToConnection (VStr "conn-1")
             (VObj [("type", VStr "STATUS_UPDATE"); ("id", VStr "abc123");
                    ("status", VStr "ERROR");
                    ("error", VStr "npm install failed")]) false;
           EvConsole Error "Error posting to connection:"]
          1).
Proof. split; [reflexivity | by vm_compute]. Qed.

(** ** Instances *)

Lemma C3_message_without_id_run :
  malformed Scenario.env_no_id Scenario.message_no_id = true
  /\ sqs_receive Scenario.env_no_id (tick Scenario.w_pending)
     = Ok (mkReceive (Some [Scenario.message_no_id]))
  /\ exists w',
       DeployService.iteration Scenario.env_no_id Scenario.w_pending
         = (Ok tt, w')
       /\ table w' = table Scenario.w_pending
       /\ existsb is_update
            (events_of (DeployService.iteration Scenario.env_no_id)
                       Scenario.w_pending) = false
       /\ existsb is_delete
            (events_of (DeployService.iteration Scenario.env_no_id)
                       Scenario.w_pending) = false.
Proof.
  split; [reflexivity|]. split; [reflexivity|].
  apply (proj2 (C3_malformed_message_left_alone Scenario.env_no_id
                  Scenario.message_no_id Scenario.w_pending eq_refl)).
  reflexivity.
Defined.

Lemma C4_register_abc123_run :
  table Scenario.w_pending !! "abc123" = Some Scenario.job_pending
  /\ (SocketHandler.handler Scenario.env_fine Scenario.register_abc123
        Scenario.w_pending).1
     = Ok (SocketHandler.mkResponse 200 "Registered.")
  /\ table (SocketHandler.handler Scenario.env_fine Scenario.register_abc123
              Scenario.w_pending).2
     = <["abc123" := <["connectionId" := AV_S "conn-1"]> Scenario.job_pending]>
         (table Scenario.w_pending).
Proof.
  split; [by vm_compute|].
  apply (C4_register_needs_existing_job Scenario.env_fine
           Scenario.register_abc123 Scenario.w_pending
           (VObj [("id", VStr "abc123")]) "abc123").
  - reflexivity.
  - reflexivity.
  - reflexivity.
  - discriminate.
  - by vm_compute.
  - reflexivity.
Defined.

Lemma C5_failed_build_run :
  has_error
    (table (DeployService.startPolling Scenario.env_first_build_fails 1
              Scenario.w_pending).2) "abc123" = true.
Proof.
  assert (is_ERROR (table Scenario.w_pending) "abc123" = true ->
          has_error (table Scenario.w_pending) "abc123" = true) as Hinit.
  { intros H. vm_compute in H. discriminate. }
  apply (proj1 (C5_error_set_with_ERROR_never_cleared
                  Scenario.env_first_build_fails 1 Scenario.w_pending
                  "abc123" Hinit)).
  by vm_compute.
Defined.

Lemma C6_registered_job_run :
  let record := Scenario.record_failed in
  let evs := events_of (StreamHandler.process_record Scenario.env_fine record)
               Scenario.w_pending in
  (existsb is_post evs = true
   <-> StreamHandler.eventName record = "MODIFY" /\ has_connection record)
  /\ (~ (StreamHandler.eventName record = "MODIFY" /\ has_connection record)
      -> existsb is_post evs = false /\ existsb is_error_log evs = false).
Proof.
  apply (C6_push_iff_modify_and_connection_present Scenario.env_fine
           Scenario.record_failed Scenario.w_pending); by vm_compute.
Defined.


Lemma C9_register_empty_object_run :
  exists w',
    SocketHandler.handler Scenario.env_fine Scenario.register_no_id
      Scenario.w_pending
    = (Ok (SocketHandler.mkResponse 400 "Missing 'id' in register message."),
       w')
    /\ table w' = table Scenario.w_pending
    /\ existsb is_update
         (events_of (SocketHandler.handler Scenario.env_fine
                       Scenario.register_no_id) Scenario.w_pending) = false
    /\ existsb is_post
         (events_of (SocketHandler.handler Scenario.env_fine
                       Scenario.register_no_id) Scenario.w_pending) = false.
Proof.
  apply (C9_register_without_id_is_rejected Scenario.env_fine
           Scenario.register_no_id Scenario.w_pending []);
    reflexivity.
Defined.

Lemma C10_failed_job_push_run :
  let e := EvPostToConnection (VStr "conn-1")
             (VObj [("type", VStr "STATUS_UPDATE"); ("id", VStr "abc123");
                    ("status", VStr "ERROR");
                    ("error", VStr "npm install failed")]) true in
  exists record img cid fields ok,
    In record [Scenario.record_failed]
    /\ StreamHandler.NewImage record = Some img
    /\ e = EvPostToConnection cid (VObj fields) ok
    /\ assoc "type" fields = Some (VStr "STATUS_UPDATE")
    /\ assoc "error" fields = Some (error_to_send img).
Proof.
  intros e.
  apply (C10_status_update_always_has_error Scenario.env_fine
           [Scenario.record_failed] Scenario.w_pending e).
  - vm_compute. tauto.
  - reflexivity.
Defined.

(** * Further properties of the consumer *)

(** ** Running the consumer step by step *)

Lemma emit_run (e : Event) (w : World) : emit e w = (Ok tt, add_events w [e]).
Proof. reflexivity. Qed.

Lemma console_log_run (text : string) (w : World) :
  console_log text w = (Ok tt, add_events w [EvConsole Info text]).
Proof. reflexivity. Qed.

Lemma console_error_run (text : string) (w : World) :
  console_error text w = (Ok tt, add_events w [EvConsole Error text]).
Proof. reflexivity. Qed.

Lemma attempt_run {A} (m : M A) (w : World) :
  attempt m w = (Ok (m w).1, (m w).2).
Proof. unfold attempt. by destruct (m w). Qed.

Lemma try_catch_run {A} (m : M A) (h : JsError -> M A) (w : World) :
  try_catch m h w =
  match m w with
  | (Ok a, w') => (Ok a, w')
  | (Throw e, w') => h e w'
  end.
Proof. reflexivity. Qed.

Lemma ret_run {A} (a : A) (w : World) : @mret M _ A a w = (Ok a, w).
Proof. reflexivity. Qed.

Lemma throw_run {A} (e : JsError) (w : World) : @throw A e w = (Throw e, w).
Proof. reflexivity. Qed.

Lemma lift_result_run {A} (r : Result A) (w : World) :
  lift_result r w = (r, w).
Proof. reflexivity. Qed.

Lemma add_events_add_events (w : World) (a b : list Event) :
  add_events (add_events w a) b = add_events w (a ++ b).
Proof. unfold add_events. cbn. by rewrite app_assoc. Qed.

Lemma add_events_after_call (w : World) (a b : list Event) :
  add_events (after_call w a) b = after_call w (a ++ b).
Proof. unfold add_events, after_call. cbn. by rewrite app_assoc. Qed.

Lemma after_call_add_events (w : World) (a b : list Event) :
  after_call (add_events w a) b = after_call w (a ++ b).
Proof. unfold add_events, after_call. cbn. by rewrite app_assoc. Qed.

Lemma startBuildAndWait_run (env : Env) (id : jsval) (w : World) :
  DeployService.startBuildAndWait env id w =
  match startBuildAndWait_result env (tick w) id with
  | None => (Ok tt, after_call w [EvBuild id true])
  | Some e => (Throw e, after_call w [EvBuild id false])
  end.
Proof.
  unfold DeployService.startBuildAndWait. run_monad.
  by destruct (startBuildAndWait_result env (tick w) id).
Qed.

Lemma sqs_send_delete_run (env : Env) (h : string) (w : World) :
  DeployService.sqs_send_delete env h w =
  match sqs_delete env (tick w) h with
  | None => (Ok tt, after_call w [EvDeleteMessage h true])
  | Some e => (Throw e, after_call w [EvDeleteMessage h false])
  end.
Proof.
  unfold DeployService.sqs_send_delete. run_monad.
  by destruct (sqs_delete env (tick w) h).
Qed.

Lemma sqs_send_receive_run (env : Env) (w : World) :
  DeployService.sqs_send_receive env w =
  match sqs_receive env (tick w) with
  | Ok out => (Ok out, after_call w [EvReceive true])
  | Throw e => (Throw e, after_call w [EvReceive false])
  end.
Proof.
  unfold DeployService.sqs_send_receive. run_monad.
  by destruct (sqs_receive env (tick w)).
Qed.

Lemma tick_add_events (w : World) (evs : list Event) :
  tick (add_events w evs) = tick w.
Proof. reflexivity. Qed.

(** Rewrites the running of a sequence by the equations of its steps. *)
Ltac run_steps :=
  repeat (first
    [ rewrite bind_run
    | rewrite console_log_run
    | rewrite console_error_run
    | rewrite emit_run
    | rewrite updateStatus_run
    | rewrite check_body_run
    | rewrite startBuildAndWait_run
    | rewrite sqs_send_delete_run
    | rewrite ret_run
    | rewrite throw_run
    | rewrite lift_result_run
    | rewrite try_catch_run
    | rewrite tick_add_events ];
    cbn beta iota delta [fst snd]).

Ltac merge_events :=
  rewrite ?add_events_add_events, ?add_events_after_call,
    ?after_call_add_events;
  cbn [app].

Section ConsumerRuns.
Context (env : Env).

Local Opaque DeployService.updateStatus DeployService.check_body.

(** The [try] block past the parse, for a body with a job id. *)
Lemma build_steps_run (body : jsval) (w : World) :
  truthy (get_prop_opt body "id") = true ->
  let id := get_prop_opt body "id" in
  let w1 :=
    after_update env id "IN_PROGRESS" None
      (add_events w [EvConsole Info "Parsed ID:";
                     EvConsole Info "Parsed Repo:"]) in
  DeployService.build_steps env body w =
  match startBuildAndWait_result env (tick w1) id with
  | Some e =>
    (Throw e,
     after_call w1 [EvConsole Info "Triggering AWS CodeBuild project for";
                    EvBuild id false])
  | None =>
    (Ok tt,
     after_update env id "DEPLOYED" None
       (after_call w1 [EvConsole Info "Triggering AWS CodeBuild project for";
                       EvBuild id true;
                       EvConsole Info "CodeBuild finished successfully for"]))
  end.
Proof.
  intros Hid id w1. unfold DeployService.build_steps.
  run_steps. rewrite Hid. run_steps. merge_events. fold id. fold w1.
  destruct (startBuildAndWait_result env (tick w1) id); run_steps;
    merge_events; reflexivity.
Qed.

(** A well-formed message takes the course [delivered]. *)
Lemma processMessage_well_formed (message : Message) (w : World)
    (h raw : string) (body : jsval) :
  ReceiptHandle message = Some h ->
  h <> "" ->
  Body message = Some raw ->
  raw <> "" ->
  JSON_parse env raw = Ok body ->
  truthy (get_prop_opt body "id") = true ->
  DeployService.processMessage env message w
  = delivered env h (get_prop_opt body "id") w.
Proof.
  intros Hh Hne%String.eqb_neq Hb Hre%String.eqb_neq Hp Hid.
  unfold DeployService.processMessage, DeployService.parse_body,
    DeployService.on_failure, DeployService.delete_message, delivered,
    attempt.
  rewrite Hh, Hb. cbn [truthy_str]. rewrite Hne, Hre. cbn [negb].
  run_steps. rewrite Hp. run_steps.
  rewrite (build_steps_run body _ Hid). merge_events.
  unfold prelude, error_text.
  match goal with
  | |- context [startBuildAndWait_result env ?n ?i] =>
    destruct (startBuildAndWait_result env n i) as [e|]
  end; run_steps.
  - rewrite Hid. run_steps. merge_events. reflexivity.
  - match goal with
    | |- context [sqs_delete env ?n h] => destruct (sqs_delete env n h)
    end; run_steps; merge_events; reflexivity.
Qed.

Lemma store_accepts_string (k : string) (w : World) :
  ddb_fault env (tick w) = None -> store_accepts env (VStr k) w = Some k.
Proof. intros H. unfold store_accepts. by rewrite H. Qed.

Lemma after_update_tick id st em w :
  tick (after_update env id st em w) = S (tick w).
Proof. unfold after_update. by destruct (store_accepts env id w). Qed.

Lemma after_update_trace id st em w :
  trace (after_update env id st em w) =
  trace w ++ update_events id
               (DeployService.expressionAttributes st (now env (tick w)) em)
               (accepted env id w).
Proof.
  unfold after_update, accepted. by destruct (store_accepts env id w).
Qed.

Lemma after_update_table id st em w k :
  store_accepts env id w = Some k ->
  table (after_update env id st em w) =
  <[k := updated_item
           (DeployService.expressionAttributes st (now env (tick w)) em)
           k (table w)]> (table w).
Proof. intros H. unfold after_update. by rewrite H. Qed.

Lemma after_update_rejected id st em w :
  store_accepts env id w = None ->
  table (after_update env id st em w) = table w.
Proof. intros H. unfold after_update. by rewrite H. Qed.

(** Brings the trace of a world built by [delivered] into the form
    [trace w ++ _]. *)
Ltac unfold_trace :=
  repeat (first [ rewrite after_update_trace
                | progress cbn [trace tick table after_call add_events]
                | rewrite after_update_tick ]);
  rewrite <- ?app_assoc.

(** A successful build.  When the build, the DEPLOYED write and the delete
    call succeed, the processing of a well-formed message completes
    normally after four external calls, the job is stored as DEPLOYED and
    the message has been deleted; a failure of the IN_PROGRESS write makes
    no difference. *)
Theorem successful_build_is_deployed_and_deleted (message : Message)
    (w : World) (h raw : string) (body : jsval) (k : string) :
  ReceiptHandle message = Some h -> h <> "" ->
  Body message = Some raw -> raw <> "" ->
  JSON_parse env raw = Ok body ->
  get_prop_opt body "id" = VStr k -> k <> "" ->
  startBuildAndWait_result env (S (tick w)) (VStr k) = None ->
  ddb_fault env (S (S (tick w))) = None ->
  sqs_delete env (S (S (S (tick w)))) h = None ->
  let run := DeployService.processMessage env message w in
  run.1 = Ok tt
  /\ stored_status (table run.2) k = Some (AV_S "DEPLOYED")
  /\ In (EvDeleteMessage h true)
        (events_of (DeployService.processMessage env message) w)
  /\ tick run.2 = 4 + tick w.
Proof.
  intros Hh Hne Hb Hre Hp Hid Hk Hbuild Hdep Hdel run.
  assert (truthy (get_prop_opt body "id") = true) as Ht.
  { rewrite Hid. cbn. apply negb_true_iff. by apply String.eqb_neq. }
  assert (run = delivered env h (VStr k) w) as Hrun.
  { subst run. rewrite <- Hid. by eapply processMessage_well_formed. }
  unfold delivered in Hrun. rewrite after_update_tick in Hrun.
  cbn [tick add_events] in Hrun. rewrite Hbuild in Hrun.
  rewrite after_update_tick in Hrun. cbn [tick after_call] in Hrun.
  rewrite after_update_tick in Hrun. cbn [tick add_events] in Hrun.
  rewrite Hdel in Hrun.
  unfold events_of. fold run. rewrite Hrun. cbn [fst snd].
  repeat split.
  - cbn [table after_call]. unfold stored_status.
    erewrite after_update_table.
    2:{ apply store_accepts_string. cbn [tick after_call].
        by rewrite after_update_tick. }
    rewrite lookup_insert_eq. cbn.
    apply (updated_item_without_error "DEPLOYED").
  - unfold_trace. rewrite drop_app_length.
    rewrite !in_app_iff. cbn. tauto.
  - repeat (first [ rewrite after_update_tick
                  | progress cbn [tick after_call add_events] ]).
    done.
Qed.

(** A failed build.  When the build rejects with [e] and the ERROR write
    succeeds, the processing completes normally, the job is stored as
    ERROR with [e]'s message (or "Unknown error" when that is empty) and
    no delete call is made. *)
Theorem failed_build_is_recorded_and_kept (message : Message)
    (w : World) (h raw : string) (body : jsval) (k : string) (e : JsError) :
  ReceiptHandle message = Some h -> h <> "" ->
  Body message = Some raw -> raw <> "" ->
  JSON_parse env raw = Ok body ->
  get_prop_opt body "id" = VStr k -> k <> "" ->
  startBuildAndWait_result env (S (tick w)) (VStr k) = Some e ->
  ddb_fault env (S (S (tick w))) = None ->
  let run := DeployService.processMessage env message w in
  run.1 = Ok tt
  /\ stored_status (table run.2) k = Some (AV_S "ERROR")
  /\ table run.2 !! k ≫= (.!! "error") = Some (AV_S (error_text e))
  /\ existsb is_delete
        (events_of (DeployService.processMessage env message) w) = false.
Proof.
  intros Hh Hne Hb Hre Hp Hid Hk Hbuild Herr run.
  assert (truthy (get_prop_opt body "id") = true) as Ht.
  { rewrite Hid. cbn. apply negb_true_iff. by apply String.eqb_neq. }
  assert (run = delivered env h (VStr k) w) as Hrun.
  { subst run. rewrite <- Hid. by eapply processMessage_well_formed. }
  unfold delivered in Hrun. rewrite after_update_tick in Hrun.
  cbn [tick add_events] in Hrun. rewrite Hbuild in Hrun.
  assert (truthy_str (Some (error_text e)) = true) as Hmsg.
  { unfold error_text. cbn.
    destruct (Js.message e =? "")%string eqn:E; [done|]. by rewrite E. }
  unfold events_of. fold run. rewrite Hrun. cbn [fst snd].
  assert (forall w0, tick w0 = S (S (tick w)) ->
            table (after_update env (VStr k) "ERROR" (Some (error_text e)) w0)
            !! k
            = Some (updated_item
                      (DeployService.expressionAttributes "ERROR"
                         (now env (tick w0)) (Some (error_text e)))
                      k (table w0))) as Htab.
  { intros w0 Hw0. erewrite after_update_table.
    - by rewrite lookup_insert_eq.
    - apply store_accepts_string. by rewrite Hw0. }
  repeat split.
  - unfold stored_status. rewrite Htab.
    2:{ cbn [tick after_call]. by rewrite after_update_tick. }
    cbn. unfold updated_item, DeployService.expressionAttributes.
    rewrite Hmsg. cbn.
    rewrite !lookup_insert_ne by done. by rewrite lookup_insert_eq.
  - rewrite Htab.
    2:{ cbn [tick after_call]. by rewrite after_update_tick. }
    cbn. unfold updated_item, DeployService.expressionAttributes.
    rewrite Hmsg. cbn. by rewrite lookup_insert_eq.
  - unfold_trace. rewrite drop_app_length.
    rewrite !existsb_app. cbn.
    unfold update_events. by do 2 destruct (accepted _ _ _).
Qed.





Lemma adds_refl (p : Event -> bool) (w : World) : adds p w w.
Proof. exists []. by rewrite app_nil_r. Qed.

Lemma adds_trans (p : Event -> bool) (w1 w2 w3 : World) :
  adds p w1 w2 -> adds p w2 w3 -> adds p w1 w3.
Proof.
  intros (evs1 & Ht1 & H1) (evs2 & Ht2 & H2). exists (evs1 ++ evs2).
  split; [by rewrite Ht2, Ht1, app_assoc|]. by rewrite forallb_app, H1, H2.
Qed.

Lemma adds_events (p : Event -> bool) {A} (m : M A) (w : World) :
  adds p w (m w).2 -> forallb p (events_of m w) = true.
Proof. intros (evs & Ht & H). by rewrite (events_of_app _ _ evs). Qed.

Lemma delivery_consumer_events (h : string) (r : Result unit)
    (evs : list Event) :
  delivery h r evs -> forallb consumer_event evs = true.
Proof.
  intros [evs' Hc|id t1 ok1 t3 msg ok3 Hm|id t1 ok1 t2 ok2
         |id t1 ok1 t2 ok2 e].
  - induction evs' as [|e evs' IH]; cbn in *; [done|].
    apply andb_prop in Hc as [He Hr]. rewrite IH by done.
    by destruct e.
  - by destruct ok1, ok3.
  - by destruct ok1, ok2.
  - by destruct ok1, ok2.
Qed.

Lemma processMessage_adds (message : Message) :
  preserves (adds consumer_event) (DeployService.processMessage env message).
Proof.
  intros w r w' Hrun.
  destruct (processMessage_delivery env message w)
    as (r0 & w0 & evs & Hrun0 & Htr & Hd).
  rewrite Hrun in Hrun0. injection Hrun0 as <- <-.
  exists evs. split; [done|]. by eapply delivery_consumer_events.
Qed.

Lemma iteration_adds :
  preserves (adds consumer_event) (DeployService.iteration env).
Proof.
  unfold DeployService.iteration.
  apply preserves_try_catch; [apply adds_trans| |].
  - unfold DeployService.poll_once.
    apply preserves_bind; [apply adds_trans| |].
    + intros w r w'. rewrite sqs_send_receive_run.
      destruct (sqs_receive env (tick w)); intros [= <- <-];
        by eexists [_].
    + intros data. destruct (Messages data) as [[|m ms]|].
      * intros w r w' [= <- <-]. by eexists [_].
      * apply preserves_for_of;
          [apply adds_refl | apply adds_trans
          | intros; apply processMessage_adds].
      * intros w r w' [= <- <-]. by eexists [_].
  - intros e w r w' [= <- <-].
    exists [EvConsole Error "Error in main polling loop:"; EvSleep 5000].
    split; [|done]. cbn. by rewrite <- app_assoc.
Qed.

(** What the consumer never does.  Over any number of polling turns the
    consumer makes no conditional update and no push to a connection, and
    every update it makes sets the status to IN_PROGRESS, DEPLOYED or
    ERROR (never PENDING) and leaves [id], [createdAt] and [connectionId]
    out of its SET list. *)
Theorem consumer_only_advances_status (n : nat) (w : World) :
  forallb consumer_event
    (events_of (DeployService.startPolling env n) w) = true.
Proof.
  apply adds_events.
  destruct (DeployService.startPolling env n w) as [r w'] eqn:E.
  revert w r w' E. induction n as [|n IH]; cbn [DeployService.startPolling].
  - intros w r w' [= <- <-]. apply adds_refl.
  - apply (preserves_bind (adds consumer_event)).
    + apply adds_trans.
    + apply iteration_adds.
    + intros _ w r w' E. by eapply IH.
Qed.

Lemma registration_kept_refl (w : World) : registration_kept w w.
Proof. intros k item H. by exists item. Qed.

Lemma registration_kept_trans (w1 w2 w3 : World) :
  registration_kept w1 w2 -> registration_kept w2 w3 ->
  registration_kept w1 w3.
Proof.
  intros H1 H2 k item Hk.
  destruct (H1 k item Hk) as (item2 & Hk2 & Ha2).
  destruct (H2 k item2 Hk2) as (item3 & Hk3 & Ha3).
  exists item3. split; [done|]. intros attr ? ? ?.
  rewrite Ha3, Ha2; done.
Qed.

Lemma registration_kept_same_table (w w' : World) :
  table w' = table w -> registration_kept w w'.
Proof. intros Ht k item H. exists item. by rewrite Ht. Qed.

Lemma registration_kept_update id st em (w : World) :
  registration_kept w (after_update env id st em w).
Proof.
  destruct (store_accepts env id w) as [k0|] eqn:Hs.
  2:{ apply registration_kept_same_table. by apply after_update_rejected. }
  intros k item Hk. rewrite (after_update_table _ _ _ _ _ Hs).
  destruct (decide (k = k0)) as [->|Hne].
  - rewrite lookup_insert_eq. eexists. split; [done|].
    intros attr H1 H2 H3.
    unfold updated_item, DeployService.expressionAttributes. rewrite Hk.
    destruct (truthy_str em); cbn; rewrite !lookup_insert_ne; done.
  - rewrite lookup_insert_ne by done. by exists item.
Qed.

(** The consumer keeps what others wrote.  Over any number of polling
    turns no job record disappears, and every attribute of a record other
    than [status], [updatedAt] and [error] (so its [connectionId] and its
    [createdAt]) stays as it was. *)
Theorem consumer_keeps_registration (n : nat) (w : World) (k : string)
    (item : Item) (attr : string) :
  table w !! k = Some item ->
  attr <> "status" -> attr <> "updatedAt" -> attr <> "error" ->
  exists item',
    table (DeployService.startPolling env n w).2 !! k = Some item'
    /\ item' !! attr = item !! attr.
Proof.
  intros Hk H1 H2 H3.
  assert (registration_kept w (DeployService.startPolling env n w).2) as H.
  { destruct (DeployService.startPolling env n w) as [r w'] eqn:E.
    apply (preserves_startPolling env registration_kept
             registration_kept_refl registration_kept_trans) in E; [done|..].
    - intros w0 e _. by apply registration_kept_same_table.
    - intros w0. by apply registration_kept_same_table.
    - intros id st em w0 _. apply registration_kept_update. }
  destruct (H k item Hk) as (item' & Hk' & Ha). exists item'. auto.
Qed.


(** A status update needs no record.  When no record exists under a
    non-empty job id and the store takes the call, [updateStatus] creates
    one that holds the id, the status and the time of the update, and
    nothing else. *)
Theorem updateStatus_creates_missing_record (k st : string) (w : World) :
  k <> "" ->
  ddb_fault env (tick w) = None ->
  table w !! k = None ->
  table (DeployService.updateStatus env (VStr k) st None w).2 !! k
  = Some (<["updatedAt" := AV_S (now env (tick w))]>
            (<["status" := AV_S st]> {[ "id" := AV_S k ]})).
Proof.
  intros _ Hf Hk. rewrite updateStatus_run. cbn [snd].
  rewrite (after_update_table _ _ _ _ k) by (by apply store_accepts_string).
  rewrite lookup_insert_eq. unfold updated_item. by rewrite Hk.
Qed.

(** An empty poll.  When the receive call returns no message (no
    [Messages] property, or an empty list) the turn logs that and ends at
    once: no store call, no build, no delete and no sleep. *)
Theorem empty_poll_ends_the_turn (out : ReceiveOutput) (w : World) :
  sqs_receive env (tick w) = Ok out ->
  Messages out = None \/ Messages out = Some [] ->
  DeployService.iteration env w =
  (Ok tt, after_call w [EvReceive true;
                        EvConsole Info "No new messages. Re-polling..."]).
Proof.
  intros Hr Hm. unfold DeployService.iteration, DeployService.poll_once.
  rewrite try_catch_run, bind_run, sqs_send_receive_run, Hr.
  cbn beta iota. destruct Hm as [-> | ->]; rewrite console_log_run;
    by rewrite add_events_after_call.
Qed.

Lemma delivery_no_receive (h : string) (r : Result unit)
    (evs : list Event) :
  delivery h r evs -> List.filter is_receive evs = [].
Proof.
  intros [evs' Hc|id t1 ok1 t3 msg ok3 Hm|id t1 ok1 t2 ok2
         |id t1 ok1 t2 ok2 e].
  - induction evs' as [|e evs' IH]; cbn in *; [done|].
    apply andb_prop in Hc as [He Hr]. destruct e; try done; by apply IH.
  - by destruct ok1, ok3.
  - by destruct ok1, ok2.
  - by destruct ok1, ok2.
Qed.

Lemma for_of_no_receive (ms : list Message) (w : World) :
  exists evs,
    trace (for_of ms (DeployService.processMessage env) w).2 = trace w ++ evs
    /\ List.filter is_receive evs = [].
Proof.
  revert w. induction ms as [|m ms IH]; intros w; cbn [for_of].
  - exists []. by rewrite app_nil_r.
  - rewrite bind_run.
    destruct (processMessage_delivery env m w)
      as (r & w1 & evs1 & Hrun & Htr & Hd).
    rewrite Hrun. apply delivery_no_receive in Hd.
    destruct r as [[]|e]; cbn [snd].
    + destruct (IH w1) as (evs2 & Htr2 & H2). exists (evs1 ++ evs2).
      split; [by rewrite Htr2, Htr, app_assoc|].
      by rewrite List.filter_app, Hd, H2.
    + by exists evs1.
Qed.

Lemma iteration_one_receive (w : World) :
  exists evs,
    trace (DeployService.iteration env w).2 = trace w ++ evs
    /\ length (List.filter is_receive evs) = 1.
Proof.
  unfold DeployService.iteration, DeployService.poll_once,
    DeployService.backoff.
  rewrite try_catch_run, bind_run, sqs_send_receive_run.
  destruct (sqs_receive env (tick w)) as [out|e]; cbn beta iota.
  2:{ run_steps. merge_events. by eexists. }
  assert (exists evs,
            forall r w1,
              match Messages out with
              | Some (m :: ms) =>
                for_of (m :: ms) (DeployService.processMessage env)
              | _ => console_log "No new messages. Re-polling..."
              end (after_call w [EvReceive true]) = (r, w1) ->
              trace w1 = trace w ++ EvReceive true :: evs
              /\ List.filter is_receive evs = []) as (evs & Hevs).
  { destruct (Messages out) as [[|m ms]|].
    - exists [EvConsole Info "No new messages. Re-polling..."].
      intros r w1 [= <- <-]. cbn. by rewrite <- app_assoc.
    - destruct (for_of_no_receive (m :: ms) (after_call w [EvReceive true]))
        as (evs & Htr & H).
      exists evs. intros r w1 E. rewrite E in Htr. cbn in Htr.
      by rewrite Htr, <- app_assoc.
    - exists [EvConsole Info "No new messages. Re-polling..."].
      intros r w1 [= <- <-]. cbn. by rewrite <- app_assoc. }
  match goal with
  | |- context [match ?run with (_, _) => _ end] =>
    destruct run as [[[]|e] w1] eqn:E
  end; destruct (Hevs _ _ eq_refl) as [Htr Hf].
  - exists (EvReceive true :: evs). split; [done|]. cbn. by rewrite Hf.
  - run_steps. merge_events.
    exists (EvReceive true :: evs
            ++ [EvConsole Error "Error in main polling loop:"; EvSleep 5000]).
    split.
    + cbn. rewrite Htr. by rewrite <- app_assoc.
    + cbn. by rewrite List.filter_app, Hf.
Qed.

(** One receive call per turn.  In [n] polling turns the consumer calls
    the queue's receive exactly [n] times, whatever the turns met. *)
Theorem polling_receives_once_per_turn (n : nat) (w : World) :
  length (List.filter is_receive
            (events_of (DeployService.startPolling env n) w)) = n.
Proof.
  assert (exists evs,
            trace (DeployService.startPolling env n w).2 = trace w ++ evs
            /\ length (List.filter is_receive evs) = n) as (evs & Htr & H).
  { revert w. induction n as [|n IH]; intros w;
      cbn [DeployService.startPolling].
    - exists []. by rewrite app_nil_r.
    - rewrite bind_run.
      destruct (iteration_completes env w) as [w1 Hit].
      destruct (iteration_one_receive w) as (evs1 & Htr1 & H1).
      rewrite Hit in *. cbn [snd] in Htr1.
      destruct (IH w1) as (evs2 & Htr2 & H2).
      exists (evs1 ++ evs2). split; [by rewrite Htr2, Htr1, app_assoc|].
      rewrite List.filter_app, length_app. lia. }
  by rewrite (events_of_app _ _ evs).
Qed.

End ConsumerRuns.

(** * Further properties of the connection registry *)

Section RegistryRuns.
Context (env : Env).

Local Opaque SocketHandler.postToConnection.

(** Routes other than [register] are answered from the route alone.  The
    handler answers [$connect] and [$disconnect] with 200 and any unknown
    route with 404; it makes no call to the store or the gateway, so a
    disconnect leaves the job's [connectionId] in place. *)
Theorem other_routes_touch_nothing (event : SocketHandler.RequestEvent)
    (w : World) :
  SocketHandler.routeKey event <> "register" ->
  let run := SocketHandler.handler env event w in
  (exists resp,
     run.1 = Ok resp
     /\ SocketHandler.statusCode resp
        = if String.eqb (SocketHandler.routeKey event) "$connect"
             || String.eqb (SocketHandler.routeKey event) "$disconnect"
          then 200%Z else 404%Z)
  /\ table run.2 = table w
  /\ tick run.2 = tick w
  /\ forallb is_console (events_of (SocketHandler.handler env event) w)
     = true.
Proof.
  intros Hr%String.eqb_neq run. subst run.
  unfold events_of, SocketHandler.handler. rewrite Hr.
  destruct (SocketHandler.routeKey event =? "$connect")%string;
    [|destruct (SocketHandler.routeKey event =? "$disconnect")%string];
    run_monad; (split; [by eexists|]);
    rewrite <- ?app_assoc, drop_app_length; done.
Qed.

(** What a registration can do to the table: nothing, or set
    [connectionId] on one existing record. *)
Lemma register_cases (event : SocketHandler.RequestEvent) (w : World) :
  exists resp w',
    SocketHandler.register env event w = (Ok resp, w')
    /\ (SocketHandler.statusCode resp = 200%Z
        \/ SocketHandler.statusCode resp = 400%Z
        \/ SocketHandler.statusCode resp = 500%Z)
    /\ (table w' = table w
        \/ exists k item,
             table w !! k = Some item
             /\ SocketHandler.statusCode resp = 200%Z
             /\ table w' =
                <[k := <["connectionId" :=
                           AV_S (SocketHandler.connectionId event)]> item]>
                  (table w)).
Proof.
  unfold SocketHandler.register, Services.ddb_update. run_monad.
  destruct (SocketHandler.parse_event_body env (SocketHandler.body event))
    as [b|e]; cbn; [|by eauto 10].
  destruct (get_prop b "id") as [v|e]; cbn; [|by eauto 10].
  destruct (truthy v); cbn; [|by eauto 10].
  destruct (ddb_fault env (tick w)); cbn; [by eauto 10|].
  destruct v; cbn; try (by eauto 10).
  destruct (table w !! s) as [item|] eqn:Hl; cbn; [|by eauto 10].
  rewrite socket_postToConnection_run. cbn.
  do 2 eexists. split; [done|]. split; [by left|]. right. by eauto.
Qed.

(** The handler always answers and never creates a record.  For every
    request the handler returns a response with status 200, 400, 404 or
    500; the table keeps exactly its job ids, and in every record all
    attributes other than [connectionId] are as before. *)
Theorem handler_answers_and_only_binds (event : SocketHandler.RequestEvent)
    (w : World) :
  exists resp w',
    SocketHandler.handler env event w = (Ok resp, w')
    /\ (SocketHandler.statusCode resp = 200%Z
        \/ SocketHandler.statusCode resp = 400%Z
        \/ SocketHandler.statusCode resp = 404%Z
        \/ SocketHandler.statusCode resp = 500%Z)
    /\ dom (table w') = dom (table w)
    /\ (forall k item attr,
          table w !! k = Some item ->
          attr <> "connectionId" ->
          exists item', table w' !! k = Some item'
                        /\ item' !! attr = item !! attr).
Proof.
  destruct (decide (SocketHandler.routeKey event = "register")) as [Hr|Hr].
  - rewrite handler_register by done.
    destruct (register_cases event
                (mkWorld (table w) (trace w ++ [EvConsole Info "Received route:"])
                   (tick w)))
      as (resp & w' & Hrun & Hs & Ht).
    exists resp, w'. split; [done|]. split; [tauto|]. cbn [table] in Ht.
    destruct Ht as [->|(k0 & item0 & Hk0 & _ & ->)].
    + split; [done|]. intros k item attr Hk _. by exists item.
    + split; [apply dom_insert_lookup_L; by eexists|].
      intros k item attr Hk Ha. destruct (decide (k = k0)) as [->|Hne].
      * rewrite lookup_insert_eq. eexists. split; [done|].
        rewrite lookup_insert_ne by done. congruence.
      * rewrite lookup_insert_ne by done. by exists item.
  - apply String.eqb_neq in Hr. unfold SocketHandler.handler. rewrite Hr.
    destruct (SocketHandler.routeKey event =? "$connect")%string;
      [|destruct (SocketHandler.routeKey event =? "$disconnect")%string];
      run_monad; do 2 eexists; (split; [done|]); cbn; (split; [tauto|]);
      (split; [done|]); intros k item attr Hk _; by exists item.
Qed.

(** A register body that is absent, is not JSON, or is the JSON [null]
    makes the handler answer 500 without any call to the store or the
    gateway. *)
Theorem register_with_unusable_body_fails (event : SocketHandler.RequestEvent)
    (w : World) :
  SocketHandler.routeKey event = "register" ->
  (exists e,
     SocketHandler.parse_event_body env (SocketHandler.body event) = Throw e)
  \/ SocketHandler.parse_event_body env (SocketHandler.body event) = Ok VNull ->
  SocketHandler.handler env event w =
  (Ok (SocketHandler.mkResponse 500 "Registration failed."),
   add_events w [EvConsole Info "Received route:";
                 EvConsole Error "Error during registration:"]).
Proof.
  intros Hr Hb. rewrite handler_register by done.
  unfold SocketHandler.register, add_events. run_monad.
  destruct Hb as [[e ->] | ->]; cbn; by rewrite <- app_assoc.
Qed.

(** An id that is not a string cannot be registered.  When the body's
    [id] is truthy but not a string the update is refused by the store's
    key schema: the handler answers 500, the table is unchanged and no
    push is made. *)
Theorem register_with_non_string_id_fails (event : SocketHandler.RequestEvent)
    (w : World) (b v : jsval) :
  SocketHandler.routeKey event = "register" ->
  SocketHandler.parse_event_body env (SocketHandler.body event) = Ok b ->
  get_prop b "id" = Ok v ->
  truthy v = true ->
  (forall k, v <> VStr k) ->
  let run := SocketHandler.handler env event w in
  run.1 = Ok (SocketHandler.mkResponse 500 "Registration failed.")
  /\ table run.2 = table w
  /\ existsb is_post (events_of (SocketHandler.handler env event) w) = false
  /\ existsb recorded (events_of (SocketHandler.handler env event) w) = false.
Proof.
  intros Hr Hb Hid Hv Hns run. subst run.
  unfold events_of. rewrite handler_register by done.
  unfold SocketHandler.register, Services.ddb_update. run_monad.
  rewrite Hb. cbn. rewrite Hid. cbn. rewrite Hv. cbn.
  destruct (ddb_fault env (tick w)); cbn.
  { rewrite <- !app_assoc, drop_app_length. done. }
  destruct v; cbn; try (rewrite <- !app_assoc, drop_app_length; done).
  by destruct (Hns s).
Qed.

(** The course of a successful registration: the conditional update, then
    one push of the confirmation to the registering connection.  The
    answer is 200 whatever the gateway says.  When the push fails, with
    whatever exception of the v3 client, also the one for a connection
    that is gone, the failure is logged; the push is not repeated. *)
Theorem register_confirms_to_the_caller (event : SocketHandler.RequestEvent)
    (w : World) (b : jsval) (jobId : string) (item : Item) :
  SocketHandler.routeKey event = "register" ->
  SocketHandler.parse_event_body env (SocketHandler.body event) = Ok b ->
  get_prop b "id" = Ok (VStr jobId) ->
  jobId <> "" ->
  table w !! jobId = Some item ->
  ddb_fault env (tick w) = None ->
  let cid := VStr (SocketHandler.connectionId event) in
  let fault := gateway_fault env (S (tick w)) cid in
  sdk_fault fault = true ->
  (SocketHandler.handler env event w).1
    = Ok (SocketHandler.mkResponse 200 "Registered.")
  /\ events_of (SocketHandler.handler env event) w =
     [EvConsole Info "Received route:";
      EvUpdateItem (VStr jobId)
        [("connectionId", AV_S (SocketHandler.connectionId event))] true true;
      EvConsole Info "Registered connection"]
     ++ match fault with
        | None => [EvPostToConnection cid (confirmation jobId) true]
        | Some _ =>
          [EvPostToConnection cid (confirmation jobId) false;
           EvConsole Error "Error posting to connection:"]
        end.
Proof.
  intros Hr Hb Hid Hne%String.eqb_neq Hk Hf cid fault Hsdk.
  unfold events_of. rewrite handler_register by done.
  unfold SocketHandler.register, Services.ddb_update. run_monad.
  rewrite Hb. cbn. rewrite Hid. cbn. rewrite Hne. cbn. rewrite Hf. cbn.
  rewrite Hk. cbn. rewrite socket_postToConnection_run. cbn.
  split; [done|]. rewrite <- !app_assoc, drop_app_length.
  fold cid fault. unfold post_events.
  destruct fault as [e|]; [|done]. cbn in Hsdk.
  apply bool_decide_eq_true in Hsdk. rewrite Hsdk. done.
Qed.

(** The last registration wins.  When two connections register for the
    same job one after the other and the store takes both calls, the job
    is bound to the second connection; its other attributes are those it
    had before the first registration. *)
Theorem last_registration_wins (ev1 ev2 : SocketHandler.RequestEvent)
    (w : World) (b1 b2 : jsval) (jobId : string) (item : Item) :
  SocketHandler.routeKey ev1 = "register" ->
  SocketHandler.routeKey ev2 = "register" ->
  SocketHandler.parse_event_body env (SocketHandler.body ev1) = Ok b1 ->
  SocketHandler.parse_event_body env (SocketHandler.body ev2) = Ok b2 ->
  get_prop b1 "id" = Ok (VStr jobId) ->
  get_prop b2 "id" = Ok (VStr jobId) ->
  jobId <> "" ->
  table w !! jobId = Some item ->
  ddb_fault env (tick w) = None ->
  ddb_fault env (S (S (tick w))) = None ->
  let w1 := (SocketHandler.handler env ev1 w).2 in
  let w2 := (SocketHandler.handler env ev2 w1).2 in
  table w2 =
  <[jobId := <["connectionId" := AV_S (SocketHandler.connectionId ev2)]> item]>
    (table w).
Proof.
  intros Hr1 Hr2 Hb1 Hb2 Hid1 Hid2 Hne%String.eqb_neq Hk Hf1 Hf2 w1 w2.
  assert (table w1 =
          <[jobId := <["connectionId" :=
                         AV_S (SocketHandler.connectionId ev1)]> item]>
            (table w) /\ tick w1 = S (S (tick w))) as [Ht1 Hn1].
  { subst w1. rewrite handler_register by done.
    unfold SocketHandler.register, Services.ddb_update. run_monad.
    rewrite Hb1. cbn. rewrite Hid1. cbn. rewrite Hne. cbn. rewrite Hf1. cbn.
    rewrite Hk. cbn. rewrite socket_postToConnection_run. done. }
  subst w2. rewrite handler_register by done.
  unfold SocketHandler.register, Services.ddb_update. run_monad.
  rewrite Hb2. cbn. rewrite Hid2. cbn. rewrite Hne. cbn.
  rewrite Hn1, Hf2. cbn. rewrite Ht1, lookup_insert_eq. cbn.
  rewrite socket_postToConnection_run. cbn.
  rewrite insert_insert_eq. f_equal. by rewrite insert_insert_eq.
Qed.

End RegistryRuns.

(** * Further properties of the change notifier *)

Section NotifierRuns.
Context (env : Env).

Lemma field_unmarshall (img : Item) (k : string) :
  field (unmarshall img) k =
  match img !! k with
  | Some a => unmarshall_attr a
  | None => VUndefined
  end.
Proof.
  unfold field, unmarshall. rewrite lookup_fmap. by destruct (img !! k).
Qed.

Lemma unmarshall_attr_defined (a : AttrValue) :
  is_undefined (unmarshall_attr a) = false.
Proof. by destruct a. Qed.

Lemma error_to_send_defined (img : Item) :
  is_undefined (error_to_send img) = false.
Proof.
  unfold error_to_send. destruct (img !! "error") as [a|]; [|done].
  destruct (truthy (unmarshall_attr a)); [|done].
  apply unmarshall_attr_defined.
Qed.

Lemma status_update_fields (img : Item) :
  JSON_stringify (StreamHandler.status_update (unmarshall img)) =
  VObj ([("type", VStr "STATUS_UPDATE")]
        ++ copied img "id" ++ copied img "status"
        ++ [("error", error_to_send img)]).
Proof.
  unfold JSON_stringify, StreamHandler.status_update, copied. f_equal.
  assert (js_or (field (unmarshall img) "error") VNull = error_to_send img)
    as ->.
  { unfold js_or, error_to_send. rewrite field_unmarshall.
    by destruct (img !! "error"). }
  rewrite !field_unmarshall. rewrite !filter_cons.
  cbn [snd negb is_undefined]. rewrite error_to_send_defined.
  destruct (img !! "id") as [a|]; destruct (img !! "status") as [b|];
    cbn [is_undefined negb]; rewrite ?unmarshall_attr_defined; cbn; done.
Qed.

Lemma posts_app (a b : list Event) : posts (a ++ b) = posts a ++ posts b.
Proof. apply omap_app. Qed.

Lemma posts_post_events (cid data : jsval) (fault : option JsError) :
  posts (post_events cid data fault) = [(cid, data)].
Proof.
  unfold post_events. destruct fault as [e|]; [|done].
  by destruct (bool_decide _).
Qed.

Lemma no_post_no_posts (evs : list Event) :
  existsb is_post evs = false -> posts evs = [].
Proof.
  induction evs as [|e evs IH]; [done|]. cbn.
  intros [He Hr]%orb_false_elim. unfold posts in *. cbn.
  rewrite IH by done. by destruct e.
Qed.

(** One record: at most one push, and the world it leaves. *)
Lemma process_record_posts (record : StreamHandler.StreamRecord)
    (w : World) :
  exists evs,
    StreamHandler.process_record env record w =
    (Ok tt, mkWorld (table w) (trace w ++ evs)
              (tick w + length (option_list (push_of record))))
    /\ posts evs = option_list (push_of record).
Proof.
  destruct (process_record_run env record w)
    as [((Hn & img' & Hi' & Hc) & img & Hi & Hrun)
       |(Hn & evs & Hrun & Hp & _)].
  - assert (img' = img) as -> by congruence.
    unfold push_of. rewrite Hn, Hi.
    replace ("MODIFY" =? "MODIFY")%string with true by reflexivity.
    cbn zeta iota. rewrite Hc. cbn [option_list length].
    eexists. split.
    + rewrite Hrun. by rewrite Nat.add_1_r.
    + change (posts (?a :: ?l)) with (posts l).
      apply posts_post_events.
  - assert (push_of record = None) as ->.
    { unfold push_of, listening in *.
      destruct (StreamHandler.eventName record =? "MODIFY")%string eqn:E;
        [|done].
      apply String.eqb_eq in E.
      destruct (StreamHandler.NewImage record) as [img|]; [|done].
      cbn zeta.
      destruct (truthy (field (unmarshall img) "connectionId")) eqn:Ec;
        [|done].
      exfalso. apply Hn. eauto. }
    exists evs. cbn. rewrite Nat.add_0_r. split; [done|].
    by apply no_post_no_posts.
Qed.

Lemma omap_push_of_cons (record : StreamHandler.StreamRecord)
    (event : list StreamHandler.StreamRecord) :
  omap push_of (record :: event)
  = option_list (push_of record) ++ omap push_of event.
Proof. cbn. by destruct (push_of record). Qed.

Lemma for_of_posts (event : list StreamHandler.StreamRecord) (w : World) :
  exists evs,
    for_of event (StreamHandler.process_record env) w =
    (Ok tt, mkWorld (table w) (trace w ++ evs)
              (tick w + length (omap push_of event)))
    /\ posts evs = omap push_of event.
Proof.
  revert w. induction event as [|record event IH]; intros w; cbn [for_of].
  - exists []. destruct w. cbn. by rewrite app_nil_r, Nat.add_0_r.
  - rewrite bind_run.
    destruct (process_record_posts record w) as (evs1 & Hrun & Hp1).
    rewrite Hrun.
    match goal with
    | |- context [for_of event _ ?w1] =>
      destruct (IH w1) as (evs2 & Hrun2 & Hp2)
    end.
    cbn [table trace tick] in Hrun2. rewrite Hrun2.
    exists (evs1 ++ evs2). split.
    + by rewrite app_assoc, omap_push_of_cons, length_app, Nat.add_assoc.
    + by rewrite posts_app, Hp1, Hp2, omap_push_of_cons.
Qed.

(** One push per listening record, in order.  For every batch whose
    images [unmarshall] turns into plain values (no number beyond the
    safe integers) the handler completes normally and never writes to
    the table; the pushes it attempts are exactly those of the batch's
    listening records, one each, in the order of the records, whatever
    the gateway answers. *)
Theorem notifier_pushes_once_per_listening_record
    (event : list StreamHandler.StreamRecord) (w : World) :
  forallb safe_record event = true ->
  let run := StreamHandler.handler env event w in
  run.1 = Ok tt
  /\ table run.2 = table w
  /\ tick run.2 = tick w + length (omap push_of event)
  /\ posts (events_of (StreamHandler.handler env event) w)
     = omap push_of event.
Proof.
  intros _ run. subst run. unfold events_of, StreamHandler.handler.
  rewrite bind_run, console_log_run. cbn beta iota.
  destruct (for_of_posts event
              (add_events w [EvConsole Info "DynamoDB Stream event received:"]))
    as (evs & Hrun & Hp).
  rewrite Hrun. cbn [fst snd table trace tick add_events].
  repeat split. rewrite <- app_assoc, drop_app_length. done.
Qed.

Lemma handler_posts (event : list StreamHandler.StreamRecord) (w : World) :
  posts (events_of (StreamHandler.handler env event) w) = omap push_of event.
Proof.
  unfold events_of, StreamHandler.handler.
  rewrite bind_run, console_log_run. cbn beta iota.
  destruct (for_of_posts event
              (add_events w [EvConsole Info "DynamoDB Stream event received:"]))
    as (evs & Hrun & Hp).
  rewrite Hrun. cbn [fst snd table trace tick add_events].
  by rewrite <- app_assoc, drop_app_length.
Qed.

(** What a push holds.  Every message the notifier pushes for a batch
    comes from one of the batch's MODIFY records: it goes to the
    connectionId of that record's new image and holds the type
    STATUS_UPDATE, the image's [id] and [status] (each left out when the
    image has no such attribute), and [error]. *)
Theorem push_carries_the_image (event : list StreamHandler.StreamRecord)
    (w : World) (cid data : jsval) :
  In (cid, data) (posts (events_of (StreamHandler.handler env event) w)) ->
  exists record img,
    In record event
    /\ StreamHandler.eventName record = "MODIFY"
    /\ StreamHandler.NewImage record = Some img
    /\ cid = field (unmarshall img) "connectionId"
    /\ data = VObj ([("type", VStr "STATUS_UPDATE")]
                    ++ copied img "id" ++ copied img "status"
                    ++ [("error", error_to_send img)]).
Proof.
  rewrite handler_posts. intros Hin%list_elem_of_In.
  apply list_elem_of_omap in Hin as (record & Hrec%list_elem_of_In & Hpush).
  unfold push_of in Hpush.
  destruct (StreamHandler.eventName record =? "MODIFY")%string eqn:En;
    [|done].
  apply String.eqb_eq in En.
  destruct (StreamHandler.NewImage record) as [img|] eqn:Ei; [|done].
  cbn zeta in Hpush.
  destruct (truthy (field (unmarshall img) "connectionId")); [|done].
  injection Hpush as <- <-.
  exists record, img. by rewrite status_update_fields.
Qed.




End NotifierRuns.

(** * Properties of the upload service *)

Import UploadService.

(** Unfolds the operations of the upload service's monad. *)
Ltac up_run :=
  unfold mbind, U_bind, mret, U_ret, up_throw, up_try_catch, up_lift,
    up_log, up_error, up_emit, up_next_tick, up_date in *;
  cbn [fst snd up_table up_queue up_trace up_tick] in *.

Section UploadRuns.
Context (env : UploadEnv).

Lemma upload_all_run (id repoPath : string) (files : list string)
    (w : UploadWorld) :
  upload_all env id repoPath files w =
  (Ok tt, mkUploadWorld (up_table w) (up_queue w)
            (up_trace w ++ upload_events env id repoPath files (up_tick w))
            (length files + up_tick w)).
Proof.
  revert w. induction files as [|file files IH]; intros w;
    cbn [upload_all upload_events length].
  - destruct w. up_run. cbn. by rewrite app_nil_r.
  - up_run. rewrite IH. cbn [up_table up_queue up_trace up_tick].
    rewrite <- app_assoc. cbn [app]. do 2 f_equal. lia.
Qed.

Lemma upload_events_no_respond id repoPath files n :
  List.filter is_respond (upload_events env id repoPath files n) = [].
Proof.
  revert n. induction files as [|f files IH]; intros n; cbn; [done|].
  apply IH.
Qed.

Lemma upload_events_no_sent id repoPath files n :
  existsb is_sent (upload_events env id repoPath files n) = false.
Proof.
  revert n. induction files as [|f files IH]; intros n; cbn; [done|].
  apply IH.
Qed.

Lemma sends_follow_put_uploads created id repoPath files n rest :
  sends_follow_put created (upload_events env id repoPath files n ++ rest)
  = sends_follow_put created rest.
Proof.
  revert n. induction files as [|f files IH]; intros n; cbn; [done|].
  apply IH.
Qed.

Lemma pending_item_lookup (id createdAt : string) :
  pending_item id createdAt !! "id" = Some (AV_S id)
  /\ pending_item id createdAt !! "status" = Some (AV_S "PENDING").
Proof. by vm_compute. Qed.

Lemma error_item_lookup (id updatedAt : string) (e : JsError) :
  error_item id updatedAt e !! "status" = Some (AV_S "ERROR").
Proof. by vm_compute. Qed.

Lemma upload_events_no_send id repoPath files n :
  List.filter is_send (upload_events env id repoPath files n) = [].
Proof.
  revert n. induction files as [|f files IH]; intros n; cbn; [done|].
  apply IH.
Qed.

Lemma sends_follow_put_pending created id createdAt rest :
  sends_follow_put created
    (UpPut {[ "id" := AV_S id; "status" := AV_S "PENDING";
              "createdAt" := AV_S createdAt ]} true :: rest)
  = sends_follow_put (Some id) rest.
Proof. reflexivity. Qed.

Lemma sends_follow_put_error created id text updatedAt rest :
  sends_follow_put created
    (UpPut {[ "id" := AV_S id; "status" := AV_S "ERROR";
              "error" := AV_S text; "updatedAt" := AV_S updatedAt ]} true
     :: rest)
  = sends_follow_put created rest.
Proof. reflexivity. Qed.

Lemma sends_follow_put_other created e rest :
  is_send e = false ->
  (forall item, e <> UpPut item true) ->
  sends_follow_put created (e :: rest) = sends_follow_put created rest.
Proof.
  intros Hs Hp. destruct e as [| item [] | | | |]; try done.
  by destruct (Hp item).
Qed.

Lemma sends_follow_put_send id repoUrl ok rest :
  sends_follow_put (Some id) (UpSend id repoUrl ok :: rest)
  = sends_follow_put (Some id) rest.
Proof. cbn [sends_follow_put]. by rewrite String.eqb_refl. Qed.

Lemma is_pending_put_pending id createdAt :
  is_pending_put id
    (UpPut {[ "id" := AV_S id; "status" := AV_S "PENDING";
              "createdAt" := AV_S createdAt ]} true) = true.
Proof. apply bool_decide_eq_true. by vm_compute. Qed.

Local Opaque upload_all.

(** Splits on the innermost undecided test of a run of the service. *)
Ltac up_exec :=
  repeat (first
    [ rewrite upload_all_run
    | match goal with
      | |- context [match ?x with _ => _ end] =>
        lazymatch x with
        | context [match _ with _ => _ end] => fail
        | context [existsb] => fail
        | _ => destruct x eqn:?
        end
      end ];
    cbn [fst snd up_table up_queue up_trace up_tick]).

Ltac unfold_deploy :=
  unfold deploy, on_deploy_failure, create_and_queue, new_id, ddb_put,
    git_clone, sendSqsMessage;
  up_run.

(** A deployment that goes through.  When the record can be put, the
    clone and the listing succeed and the queue takes the message, the
    handler creates the PENDING record under the lower-cased id, queues
    one message with that id and the request's repoUrl, and answers 200
    with the id; failed uploads of files make no difference. *)
Theorem deploy_creates_then_queues (req_body repoUrl : jsval)
    (files : list string) (w : UploadWorld) :
  let id := toLowerCase (generateRandomString env (up_tick w)) in
  get_prop req_body "repoUrl" = Ok repoUrl ->
  id <> "" ->
  put_fault env (S (up_tick w)) = None ->
  clone_fault env (S (S (up_tick w))) = None ->
  getAllFiles env (dirname env +:+ "/repos/" +:+ id) = Ok files ->
  send_fault env (length files + S (S (S (up_tick w)))) = None ->
  let run := deploy env req_body w in
  run.1 = Ok tt
  /\ up_table run.2
     = <[id := pending_item id (up_now env (S (up_tick w)))]> (up_table w)
  /\ up_queue run.2 = up_queue w ++ [(id, repoUrl)]
  /\ last (up_trace run.2)
     = Some (UpRespond 200
               [("message", VStr ("Deployment " +:+ id
                                  +:+ " successfully queued!"));
                ("id", VStr id)]).
Proof.
  intros id Hget Hid%String.eqb_neq Hput Hclone Hfiles Hsend run.
  subst run. unfold_deploy. rewrite Hget. cbn [fst snd up_tick].
  fold id. rewrite Hput.
  destruct (id =? "")%string eqn:E; [congruence|]. clear E.
  cbn [fst snd up_tick up_trace].
  rewrite Hclone. cbn [fst snd]. rewrite Hfiles. cbn [fst snd].
  rewrite upload_all_run. cbn [fst snd up_tick up_queue up_table up_trace].
  rewrite Hsend. cbn [fst snd up_tick up_queue up_table up_trace].
  repeat split. apply last_snoc.
Qed.

(** A deployment that fails after the record was created.  When the clone
    fails and the store takes the second put, the job's record is
    replaced by one that holds id, status ERROR, the error's message (or
    "Upload service failure") and updatedAt, and no createdAt; nothing is
    queued and the answer is 500. *)
Theorem deploy_failure_replaces_the_record (req_body repoUrl : jsval)
    (e : JsError) (w : UploadWorld) :
  let id := toLowerCase (generateRandomString env (up_tick w)) in
  get_prop req_body "repoUrl" = Ok repoUrl ->
  id <> "" ->
  put_fault env (S (up_tick w)) = None ->
  clone_fault env (S (S (up_tick w))) = Some e ->
  put_fault env (S (S (S (up_tick w)))) = None ->
  let run := deploy env req_body w in
  let item := error_item id (up_now env (S (S (S (up_tick w))))) e in
  run.1 = Ok tt
  /\ up_table run.2 = <[id := item]> (up_table w)
  /\ item !! "createdAt" = None
  /\ up_queue run.2 = up_queue w
  /\ last (up_trace run.2)
     = Some (UpRespond 500 [("error", VStr "Failed to deploy repository")]).
Proof.
  intros id Hget Hid%String.eqb_neq Hput Hclone Hput2 run item.
  subst run. unfold_deploy. rewrite Hget. cbn [fst snd up_tick].
  fold id. rewrite Hput.
  destruct (id =? "")%string eqn:E; [congruence|]. clear E.
  cbn [fst snd up_tick up_trace negb].
  rewrite Hclone. cbn [fst snd up_tick up_trace up_table up_queue].
  rewrite Hput2. cbn [fst snd up_tick up_trace up_table up_queue].
  split; [reflexivity|].
  split; [by rewrite insert_insert_eq|].
  split; [by vm_compute|].
  split; [reflexivity|].
  apply last_snoc.
Qed.

(** The handler answers exactly once.  For every request and every
    behaviour of the services the handler completes normally and sends
    exactly one response, as its last action: 200 when the queue accepted
    the message, 500 otherwise. *)
Theorem deploy_answers_exactly_once (req_body : jsval) (w : UploadWorld) :
  let evs := up_events_of (deploy env req_body) w in
  (deploy env req_body w).1 = Ok tt
  /\ length (List.filter is_respond evs) = 1
  /\ exists body,
       last evs = Some (UpRespond (if existsb is_sent evs then 200 else 500)
                          body).
Proof.
  intros evs. subst evs. unfold up_events_of. unfold_deploy.
  up_exec. all: rewrite <- ?app_assoc; rewrite drop_app_length.
  all: split; [done|].
  all: split;
    [ rewrite ?List.filter_app, ?upload_events_no_respond; by cbn |].
  all: eexists; rewrite ?existsb_app, ?upload_events_no_sent;
    cbn [existsb is_sent orb]; rewrite ?app_assoc;
    first [apply last_snoc | reflexivity].

Qed.

(** No message without a record.  Whatever the services answer, a message
    is handed to the queue only after the PENDING record of the same id
    was put, and at most one message is queued per request. *)
Theorem deploy_queues_only_after_the_record (req_body : jsval)
    (w : UploadWorld) :
  let evs := up_events_of (deploy env req_body) w in
  sends_follow_put None evs = true
  /\ length (List.filter is_send evs) <= 1
  /\ (up_queue (deploy env req_body w).2 = up_queue w
      \/ exists id repoUrl,
           up_queue (deploy env req_body w).2 = up_queue w ++ [(id, repoUrl)]
           /\ existsb (is_pending_put id) evs = true).
Proof.
  intros evs. subst evs. unfold up_events_of. unfold_deploy.
  up_exec. all: rewrite <- ?app_assoc; rewrite drop_app_length.
  all: cbn [app].
  all: split;
    [ repeat (first
        [ rewrite sends_follow_put_pending
        | rewrite sends_follow_put_error
        | rewrite sends_follow_put_uploads
        | rewrite sends_follow_put_send
        | rewrite sends_follow_put_other by done ]);
      reflexivity |].
  all: split;
    [ cbn [List.filter is_send];
      rewrite ?List.filter_app, ?upload_events_no_send; cbn; lia |].
  all: first
    [ by left
    | right; eexists _, _; split; [reflexivity|];
      cbn [existsb]; rewrite is_pending_put_pending;
      reflexivity ].
Qed.

(** What a request ends with, by whether its message was queued. *)
Lemma deploy_outcome (req_body : jsval) (w : UploadWorld) :
  let id := toLowerCase (generateRandomString env (up_tick w)) in
  let run := deploy env req_body w in
  let evs := up_events_of (deploy env req_body) w in
  if existsb is_sent evs then
    id <> ""
    /\ up_table run.2
       = <[id := pending_item id (up_now env (S (up_tick w)))]> (up_table w)
    /\ last evs
       = Some (UpRespond 200
                 [("message", VStr ("Deployment " +:+ id
                                    +:+ " successfully queued!"));
                  ("id", VStr id)])
  else
    last evs
    = Some (UpRespond 500 [("error", VStr "Failed to deploy repository")]).
Proof.
  intros id run evs. subst id run evs. unfold up_events_of. unfold_deploy.
  up_exec. all: rewrite <- ?app_assoc; rewrite drop_app_length.
  all: rewrite ?existsb_app, ?upload_events_no_sent;
    cbn [existsb is_sent orb].
  all: rewrite ?app_assoc.
  all: try (first [apply last_snoc | reflexivity]).
  split; [by apply String.eqb_neq|]. split; [done|]. apply last_snoc.
Qed.

End UploadRuns.

(** * The client *)

(** Unfolds the operations of the client's monad. *)
Ltac c_run :=
  unfold mbind, Client.C_bind, mret, Client.C_ret, Client.c_throw,
    Client.c_lift, Client.c_try_catch, Client.setStatus, Client.setLogs,
    Client.setResult, Client.addLog, Client.fetch_post, Client.ws_send,
    Client.ws_close in *;
  cbn [fst snd Client.status Client.logs Client.result Client.requests
       Client.sockets Client.sent Client.closes] in *.


Section ClientRuns.
Context (cenv : Client.ClientEnv).


(** The state a failed job leaves in the client.  When the image of a job
    has status ERROR and the client parses the message the notifier built
    from it, the handler completes with [status] set to ERROR and
    [result] set to the error the record holds, or to the default text
    when the record holds none (the notifier then sends null), and it
    closes the socket.  This is the state handed to the next render, not
    what the render draws. *)
Theorem failed_job_sets_the_error_result (img : Item) (id : jsval)
    (event_data : string) (v : Client.View) :
  safe_image img = true ->
  img !! "status" = Some (AV_S "ERROR") ->
  Client.parse cenv event_data
    = Ok (JSON_stringify (StreamHandler.status_update (unmarshall img))) ->
  let run := Client.onmessage cenv id event_data v in
  run.1 = Ok tt
  /\ Client.status run.2 = VStr "ERROR"
  /\ Client.result run.2
     = Some (Client.ResultError
               (match img !! "error" with
                | Some a => if truthy (unmarshall_attr a)
                            then unmarshall_attr a
                            else VStr "Unknown build error. Check CodeBuild logs."
                | None => VStr "Unknown build error. Check CodeBuild logs."
                end))
  /\ Client.closes run.2 = S (Client.closes v).
Proof.
  intros _ Hst Hparse run. subst run. unfold Client.onmessage.
  rewrite Hparse, status_update_fields. c_run.
  unfold copied, error_to_send. rewrite Hst.
  destruct (img !! "id") as [i|]; destruct (img !! "error") as [a|];
    [destruct (truthy (unmarshall_attr a)) eqn:Et| |
     destruct (truthy (unmarshall_attr a)) eqn:Et|];
    cbn; unfold js_or; rewrite ?Et; done.
Qed.

(** A submission always settles.  Whatever [fetch] gives, [handleSubmit]
    completes after one request that holds the form's repoUrl, and sends
    and closes nothing.  It ends either waiting (status PENDING, no
    result, one socket set up for the [id] of the answer) or failed
    (status ERROR, a result holding a non-empty error text, no socket). *)
Theorem handleSubmit_settles (repoUrl : string) (fetched : Client.Fetched)
    (v : Client.View) :
  let run := Client.handleSubmit cenv repoUrl fetched v in
  run.1 = Ok tt
  /\ Client.requests run.2
     = Client.requests v ++ [VObj [("repoUrl", VStr repoUrl)]]
  /\ Client.sent run.2 = Client.sent v
  /\ Client.closes run.2 = Client.closes v
  /\ ((Client.status run.2 = VStr "PENDING"
       /\ Client.result run.2 = None
       /\ exists id, Client.sockets run.2 = Client.sockets v ++ [id])
      \/ (Client.status run.2 = VStr "ERROR"
          /\ Client.sockets run.2 = Client.sockets v
          /\ exists text,
               text <> ""
               /\ Client.result run.2
                  = Some (Client.ResultError (VStr text)))).
Proof.
  intros run. subst run.
  unfold Client.handleSubmit, Client.setupWebSocket. c_run.
  assert (forall e : JsError,
            (if (message e =? "")%string
             then "Unknown server error" else message e) <> "") as Htext.
  { intros e. destruct (message e =? "")%string eqn:E; [done|].
    by apply String.eqb_neq. }
  destruct fetched as [[ok [data|e]]|e]; cbn [fst snd];
    [ destruct ok; cbn [negb];
      [ destruct (get_prop data "id") as [i|e];
        [destruct (Client.WebSocket_fault cenv) as [e|]|]
      | destruct (get_prop data "error") as [er|e] ]
    | | ];
    cbn [fst snd Client.status Client.logs Client.result Client.requests
         Client.sockets Client.sent Client.closes];
    (do 4 (split; [done|]));
    first [ left; by eauto
          | right; split; [done|]; split; [done|]; eexists; split;
            [apply Htext | reflexivity] ].
Qed.



End ClientRuns.

(** * From the request to the registration *)

Section RegistrationRuns.
Context (env : Env).
Local Opaque SocketHandler.postToConnection.

(** A registration that goes through. *)
Lemma handler_register_ok (event : SocketHandler.RequestEvent) (w : World)
    (b : jsval) (jobId : string) (item : Item) :
  SocketHandler.routeKey event = "register" ->
  SocketHandler.parse_event_body env (SocketHandler.body event) = Ok b ->
  get_prop b "id" = Ok (VStr jobId) ->
  jobId <> "" ->
  table w !! jobId = Some item ->
  ddb_fault env (tick w) = None ->
  (SocketHandler.handler env event w).1
    = Ok (SocketHandler.mkResponse 200 "Registered.")
  /\ table (SocketHandler.handler env event w).2
     = <[jobId := <["connectionId" :=
                      AV_S (SocketHandler.connectionId event)]> item]>
         (table w).
Proof.
  intros Hr Hb Hid Hne%String.eqb_neq Hk Hf.
  rewrite handler_register by done.
  unfold SocketHandler.register, Services.ddb_update. run_monad.
  rewrite Hb. cbn. rewrite Hid. cbn. rewrite Hne. cbn. rewrite Hf. cbn.
  rewrite Hk. cbn. rewrite socket_postToConnection_run. done.
Qed.
End RegistrationRuns.

Section EndToEnd.
Context (uenv : UploadEnv) (env : Env) (cenv : Client.ClientEnv).

(** The answer of the upload service settles the client.  When the client
    receives what POST /deploy answered, it ends waiting with a socket set
    up for the job's id if the job was queued, and failed with the text
    "Failed to deploy repository" and no socket otherwise. *)
Theorem deploy_answer_settles_the_client (req_body : jsval)
    (uw : UploadWorld) (code : Z) (body : list (string * jsval))
    (repoUrl : string) (v : Client.View) :
  let id := toLowerCase (generateRandomString uenv (up_tick uw)) in
  let evs := up_events_of (deploy uenv req_body) uw in
  last evs = Some (UpRespond code body) ->
  Client.WebSocket_fault cenv = None ->
  let fetched := Ok (Client.response_ok code, Ok (VObj body)) in
  let run := Client.handleSubmit cenv repoUrl fetched v in
  if existsb is_sent evs then
    Client.status run.2 = VStr "PENDING"
    /\ Client.result run.2 = None
    /\ Client.sockets run.2 = Client.sockets v ++ [VStr id]
  else
    Client.status run.2 = VStr "ERROR"
    /\ Client.result run.2
       = Some (Client.ResultError (VStr "Failed to deploy repository"))
    /\ Client.sockets run.2 = Client.sockets v.
Proof.
  intros id evs Hlast Hws fetched run. subst run fetched.
  pose proof (deploy_outcome uenv req_body uw) as Hout.
  cbn zeta in Hout. fold evs id in Hout.
  unfold Client.handleSubmit, Client.setupWebSocket. c_run. rewrite Hws.
  destruct (existsb is_sent evs).
  - destruct Hout as (_ & _ & Hl). rewrite Hl in Hlast.
    injection Hlast as <- <-. cbn. done.
  - rewrite Hout in Hlast. injection Hlast as <- <-. cbn. done.
Qed.

(** The client registers for a job that exists.  When POST /deploy has
    queued the job, the client that received its answer opens a socket
    and sends a register message; when the WebSocket lambda parses that
    message, on the table the upload service left, and the store takes
    the call, the registration is answered with 200 and the job's PENDING
    record is bound to the connection. *)
Theorem client_registration_finds_its_job (req_body : jsval)
    (uw : UploadWorld) (code : Z) (body : list (string * jsval))
    (repoUrl : string) (v : Client.View) (jobId msg : jsval)
    (event : SocketHandler.RequestEvent) (w : World) :
  let id := toLowerCase (generateRandomString uenv (up_tick uw)) in
  let evs := up_events_of (deploy uenv req_body) uw in
  existsb is_sent evs = true ->
  last evs = Some (UpRespond code body) ->
  Client.WebSocket_fault cenv = None ->
  let fetched := Ok (Client.response_ok code, Ok (VObj body)) in
  let v1 := (Client.handleSubmit cenv repoUrl fetched v).2 in
  last (Client.sockets v1) = Some jobId ->
  last (Client.sent (Client.onopen jobId v1).2) = Some msg ->
  table w = up_table (deploy uenv req_body uw).2 ->
  SocketHandler.routeKey event = "register" ->
  SocketHandler.parse_event_body env (SocketHandler.body event) = Ok msg ->
  ddb_fault env (tick w) = None ->
  let run := SocketHandler.handler env event w in
  run.1 = Ok (SocketHandler.mkResponse 200 "Registered.")
  /\ table run.2 !! id
     = Some (<["connectionId" := AV_S (SocketHandler.connectionId event)]>
               (pending_item id (up_now uenv (S (up_tick uw))))).
Proof.
  intros id evs Hsent Hlast Hws fetched v1 Hsock Hmsg Htable Hroute Hparse
    Hfault run.
  pose proof (deploy_outcome uenv req_body uw) as Hout.
  cbn zeta in Hout. fold evs id in Hout. rewrite Hsent in Hout.
  destruct Hout as (Hne & Htab & Hl).
  rewrite Hl in Hlast. injection Hlast as <- <-.
  subst v1 fetched. revert Hsock Hmsg.
  unfold Client.handleSubmit, Client.setupWebSocket, Client.onopen. c_run.
  rewrite Hws. cbn. rewrite !last_snoc. intros [= <-] [= <-].
  destruct (handler_register_ok env event w _ id
              (pending_item id (up_now uenv (S (up_tick uw))))
              Hroute Hparse) as [Hresp Ht]; try done.
  { rewrite Htable, Htab. apply lookup_insert_eq. }
  subst run. split; [done|]. rewrite Ht. apply lookup_insert_eq.
Qed.
End EndToEnd.

(** * Instances of the further properties *)

(** Decides a disequality of closed strings. *)
Ltac closed_neq := let H := fresh in intros H; vm_compute in H; discriminate.

Lemma successful_build_abc123_run :
  stored_status
    (table (DeployService.processMessage Scenario.env_fine
              Scenario.message_abc123 Scenario.w_pending).2) "abc123"
  = Some (AV_S "DEPLOYED").
Proof.
  refine (proj1 (proj2 (successful_build_is_deployed_and_deleted
                          Scenario.env_fine Scenario.message_abc123
                          Scenario.w_pending "receipt-1" Scenario.body_abc123
                          (VObj [("id", VStr "abc123")]) "abc123"
                          _ _ _ _ _ _ _ _ _ _)));
    first [reflexivity | closed_neq].
Defined.

Lemma failed_build_abc123_run :
  table (DeployService.processMessage Scenario2.env_build_fails
           Scenario.message_abc123 Scenario.w_pending).2 !! "abc123"
    ≫= (.!! "error")
  = Some (AV_S (error_text (Error_ "npm install failed"))).
Proof.
  refine (proj1 (proj2 (proj2 (failed_build_is_recorded_and_kept
                                 Scenario2.env_build_fails
                                 Scenario.message_abc123 Scenario.w_pending
                                 "receipt-1" Scenario.body_abc123
                                 (VObj [("id", VStr "abc123")]) "abc123"
                                 (Error_ "npm install failed")
                                 _ _ _ _ _ _ _ _ _))));
    first [reflexivity | closed_neq].
Defined.

Lemma registration_survives_a_build_run :
  exists item',
    table (DeployService.startPolling Scenario.env_fine 1
             Scenario2.w_registered).2 !! "abc123" = Some item'
    /\ item' !! "connectionId" = Scenario2.job_registered !! "connectionId".
Proof.
  refine (consumer_keeps_registration Scenario.env_fine 1
            Scenario2.w_registered "abc123" Scenario2.job_registered
            "connectionId" _ _ _ _);
    first [closed_neq | by vm_compute].
Defined.

Lemma phantom_record_run :
  table (DeployService.updateStatus Scenario.env_fine (VStr "abc123")
           "IN_PROGRESS" None Scenario2.w_empty).2 !! "abc123"
  = Some (<["updatedAt" := AV_S (now Scenario.env_fine 0)]>
            (<["status" := AV_S "IN_PROGRESS"]> {[ "id" := AV_S "abc123" ]})).
Proof.
  apply (updateStatus_creates_missing_record Scenario.env_fine "abc123"
           "IN_PROGRESS" Scenario2.w_empty);
    first [closed_neq | by vm_compute].
Defined.

Lemma idle_queue_run :
  DeployService.iteration Scenario2.env_idle Scenario.w_pending =
  (Ok tt, after_call Scenario.w_pending
            [EvReceive true;
             EvConsole Info "No new messages. Re-polling..."]).
Proof.
  apply (empty_poll_ends_the_turn Scenario2.env_idle (mkReceive None)
           Scenario.w_pending); [reflexivity | by left].
Defined.

Lemma disconnect_run :
  table (SocketHandler.handler Scenario.env_fine Scenario2.disconnect_conn1
           Scenario2.w_registered).2
  = table Scenario2.w_registered.
Proof.
  apply (other_routes_touch_nothing Scenario.env_fine
           Scenario2.disconnect_conn1 Scenario2.w_registered).
  closed_neq.
Defined.

Lemma register_null_run :
  SocketHandler.handler Scenario.env_fine Scenario2.register_null
    Scenario.w_pending =
  (Ok (SocketHandler.mkResponse 500 "Registration failed."),
   add_events Scenario.w_pending
     [EvConsole Info "Received route:";
      EvConsole Error "Error during registration:"]).
Proof.
  apply (register_with_unusable_body_fails Scenario.env_fine
           Scenario2.register_null Scenario.w_pending);
    [reflexivity | by right].
Defined.

Lemma register_numeric_id_run :
  (SocketHandler.handler Scenario2.env_numeric_id
     Scenario2.register_numeric_id Scenario.w_pending).1
  = Ok (SocketHandler.mkResponse 500 "Registration failed.").
Proof.
  apply (register_with_non_string_id_fails Scenario2.env_numeric_id
           Scenario2.register_numeric_id Scenario.w_pending
           (VObj [("id", VNum 7)]) (VNum 7));
    first [reflexivity | discriminate].
Defined.

Lemma register_confirmation_run :
  let env := Scenario.env_gateway_fails Scenario.gone in
  (SocketHandler.handler env Scenario.register_abc123 Scenario.w_pending).1
    = Ok (SocketHandler.mkResponse 200 "Registered.")
  /\ events_of (SocketHandler.handler env Scenario.register_abc123)
       Scenario.w_pending =
     [EvConsole Info "Received route:";
      EvUpdateItem (VStr "abc123") [("connectionId", AV_S "conn-1")] true true;
      EvConsole Info "Registered connection";
      EvPostToConnection (VStr "conn-1") (confirmation "abc123") false;
      EvConsole Error "Error posting to connection:"].
Proof.
  refine (register_confirms_to_the_caller
            (Scenario.env_gateway_fails Scenario.gone)
            Scenario.register_abc123 Scenario.w_pending
            (VObj [("id", VStr "abc123")]) "abc123" Scenario.job_pending
            _ _ _ _ _ _ _);
    first [reflexivity | closed_neq | by vm_compute].
Defined.

Lemma second_registration_run :
  table (SocketHandler.handler Scenario.env_fine
           Scenario2.register_abc123_conn2
           (SocketHandler.handler Scenario.env_fine Scenario.register_abc123
              Scenario.w_pending).2).2
  = <["abc123" := <["connectionId" := AV_S "conn-2"]> Scenario.job_pending]>
      (table Scenario.w_pending).
Proof.
  apply (last_registration_wins Scenario.env_fine Scenario.register_abc123
           Scenario2.register_abc123_conn2 Scenario.w_pending
           (VObj [("id", VStr "abc123")]) (VObj [("id", VStr "abc123")])
           "abc123" Scenario.job_pending);
    first [reflexivity | closed_neq | by vm_compute].
Defined.



Lemma deploy_site_run :
  let env := UploadScenario.up_env false in
  let id := toLowerCase (generateRandomString env 0) in
  let run := deploy env UploadScenario.request UploadScenario.w_start in
  run.1 = Ok tt
  /\ up_table run.2
     = <[id := pending_item id (up_now env 1)]>
         (up_table UploadScenario.w_start)
  /\ up_queue run.2 = [(id, VStr "https://github.com/user/site.git")]
  /\ last (up_trace run.2)
     = Some (UpRespond 200
               [("message", VStr ("Deployment " +:+ id
                                  +:+ " successfully queued!"));
                ("id", VStr id)]).
Proof.
  refine (deploy_creates_then_queues (UploadScenario.up_env false)
            UploadScenario.request
            (VStr "https://github.com/user/site.git")
            UploadScenario.site_files UploadScenario.w_start _ _ _ _ _ _);
    first [reflexivity | closed_neq].
Defined.

Lemma deploy_clone_fails_run :
  let env := UploadScenario.up_env true in
  let id := toLowerCase (generateRandomString env 0) in
  let run := deploy env UploadScenario.request UploadScenario.w_start in
  let item := error_item id (up_now env 3)
                (Error_ "fatal: repository not found") in
  run.1 = Ok tt
  /\ up_table run.2 = <[id := item]> (up_table UploadScenario.w_start)
  /\ item !! "createdAt" = None
  /\ up_queue run.2 = up_queue UploadScenario.w_start
  /\ last (up_trace run.2)
     = Some (UpRespond 500 [("error", VStr "Failed to deploy repository")]).
Proof.
  refine (deploy_failure_replaces_the_record (UploadScenario.up_env true)
            UploadScenario.request
            (VStr "https://github.com/user/site.git")
            (Error_ "fatal: repository not found")
            UploadScenario.w_start _ _ _ _ _);
    first [reflexivity | closed_neq].
Defined.

Lemma failed_job_push_holds_the_image :
  let cid := VStr "conn-1" in
  let data := VObj [("type", VStr "STATUS_UPDATE"); ("id", VStr "abc123");
                    ("status", VStr "ERROR");
                    ("error", VStr "npm install failed")] in
  exists record img,
    In record [Scenario.record_failed]
    /\ StreamHandler.eventName record = "MODIFY"
    /\ StreamHandler.NewImage record = Some img
    /\ cid = field (unmarshall img) "connectionId"
    /\ data = VObj ([("type", VStr "STATUS_UPDATE")]
                    ++ copied img "id" ++ copied img "status"
                    ++ [("error", error_to_send img)]).
Proof.
  intros cid data.
  refine (push_carries_the_image (Scenario.env_gateway_fails Scenario.gone)
            [Scenario.record_failed] Scenario.w_pending cid data _).
  vm_compute. left. reflexivity.
Defined.


Lemma failed_job_result_run :
  let run := Client.onmessage ClientScenario.cenv (VStr "abc123")
               (ClientScenario.text_of ClientScenario.update_failed)
               ClientScenario.waiting in
  run.1 = Ok tt
  /\ Client.status run.2 = VStr "ERROR"
  /\ Client.result run.2
     = Some (Client.ResultError (VStr "npm install failed"))
  /\ Client.closes run.2 = 1.
Proof.
  refine (failed_job_sets_the_error_result ClientScenario.cenv
            (Scenario.image (Some (AV_S "conn-1")) "ERROR"
               (Some (AV_S "npm install failed")))
            (VStr "abc123")
            (ClientScenario.text_of ClientScenario.update_failed)
            ClientScenario.waiting _ _ _);
    by vm_compute.
Defined.


Lemma deploy_answer_run :
  let run := Client.handleSubmit ClientScenario.cenv
               "https://github.com/user/site.git"
               (Ok (true,
                    Ok (VObj [("message",
                               VStr "Deployment abc12 successfully queued!");
                              ("id", VStr "abc12")])))
               Client.initial in
  Client.status run.2 = VStr "PENDING"
  /\ Client.result run.2 = None
  /\ Client.sockets run.2 = [VStr "abc12"].
Proof.
  refine (deploy_answer_settles_the_client (UploadScenario.up_env false)
            ClientScenario.cenv UploadScenario.request
            UploadScenario.w_start 200
            [("message", VStr "Deployment abc12 successfully queued!");
             ("id", VStr "abc12")]
            "https://github.com/user/site.git" Client.initial _ _);
    by vm_compute.
Defined.

Lemma client_registration_run :
  let run := SocketHandler.handler ClientScenario.env_socket
               ClientScenario.register_from_client
               ClientScenario.w_after_deploy in
  run.1 = Ok (SocketHandler.mkResponse 200 "Registered.")
  /\ table run.2 !! "abc12"
     = Some (<["connectionId" := AV_S "conn-7"]>
               (pending_item "abc12" "2025-01-01T00:00:01.000Z")).
Proof.
  refine (client_registration_finds_its_job (UploadScenario.up_env false)
            ClientScenario.env_socket ClientScenario.cenv
            UploadScenario.request UploadScenario.w_start 200
            [("message", VStr "Deployment abc12 successfully queued!");
             ("id", VStr "abc12")]
            "https://github.com/user/site.git" Client.initial
            (VStr "abc12") ClientScenario.register_abc12
            ClientScenario.register_from_client
            ClientScenario.w_after_deploy _ _ _ _ _ _ _ _ _);
    by vm_compute.
Defined.

Lemma batch_of_three_run :
  let event := [Scenario.record_failed;
                StreamHandler.mkRecord "INSERT" (Some Scenario.job_pending);
                StreamHandler.mkRecord "MODIFY"
                  (Some Scenario2.job_registered)] in
  let run := StreamHandler.handler Scenario.env_fine event
               Scenario.w_pending in
  run.1 = Ok tt
  /\ table run.2 = table Scenario.w_pending
  /\ tick run.2 = tick Scenario.w_pending + length (omap push_of event)
  /\ posts (events_of (StreamHandler.handler Scenario.env_fine event)
              Scenario.w_pending)
     = omap push_of event.
Proof.
  intros event.
  refine (notifier_pushes_once_per_listening_record Scenario.env_fine event
            Scenario.w_pending _).
  by vm_compute.
Defined.

